(** * MARBL_diags_to_diag_table: the line parser, the template registry
      and the top-level conversion routine, embedded from
      cime_config/MARBL_scripts/MARBL_diags_to_diag_table.py. *)

From Stdlib Require Import ZArith Ascii.
From stdpp Require Import gmap strings list.

Local Open Scope Z_scope.

(** ** Python strings

    A Python [str] is modelled as a Rocq [string] whose characters are the
    code points 0..255.  Only the three [str] methods the script uses are
    embedded: [split] with a one-character separator, [strip] without
    argument, and the substring test [in]. *)

Module PyStr.

(** [str.isspace] on the code points 0..255: TAB, LF, VT, FF, CR, the four
    information separators FS, GS, RS, US, the blank, NEL and NBSP. *)
Definition isspace (c : ascii) : bool :=
  match c with
  | "009" | "010" | "011" | "012" | "013"
  | "028" | "029" | "030" | "031"
  | " " | "133" | "160" => true
  | _ => false
  end%char.

Fixpoint lstrip (s : string) : string :=
  match s with
  | EmptyString => EmptyString
  | String c s' => if isspace c then lstrip s' else s
  end.

Fixpoint rstrip (s : string) : string :=
  match s with
  | EmptyString => EmptyString
  | String c s' =>
      match rstrip s' with
      | EmptyString => if isspace c then EmptyString else String c EmptyString
      | r => String c r
      end
  end.

(** [s.strip()] *)
Definition strip (s : string) : string := rstrip (lstrip s).

(** [s.split(sep)] for a separator of length one: every occurrence cuts,
    empty pieces are kept, the result is never empty. *)
Fixpoint split (sep : ascii) (s : string) : list string :=
  match s with
  | EmptyString => [EmptyString]
  | String c s' =>
      if Ascii.eqb c sep then EmptyString :: split sep s'
      else match split sep s' with
           | [] => [String c EmptyString]
           | p :: ps => String c p :: ps
           end
  end.

Fixpoint startswith (pat s : string) : bool :=
  match pat, s with
  | EmptyString, _ => true
  | String a pat', String b s' => Ascii.eqb a b && startswith pat' s'
  | String _ _, EmptyString => false
  end.

(** [pat in s] *)
Fixpoint contains (pat s : string) : bool :=
  startswith pat s ||
  match s with
  | EmptyString => false
  | String _ s' => contains pat s'
  end.

Fixpoint drop (n : nat) (s : string) : string :=
  match n, s with
  | S n', String _ s' => drop n' s'
  | _, _ => s
  end.

(** [s[-n:]] for [n > 0]: the last [n] characters, the whole of [s] when
    it is shorter. *)
Definition last_chars (n : nat) (s : string) : string :=
  drop (String.length s - n)%nat s.

(** [sep.join(l)], used to write input lines down in statements. *)
Fixpoint join (sep : string) (l : list string) : string :=
  match l with
  | [] => EmptyString
  | [x] => x
  | x :: l' => x +:+ sep +:+ join sep l'
  end.

(** Character-wise predicates used by the statements. *)
Fixpoint forallb (p : ascii → bool) (s : string) : bool :=
  match s with
  | EmptyString => true
  | String c s' => p c && forallb p s'
  end.

Definition lacks (c : ascii) (s : string) : bool :=
  forallb (λ x, negb (Ascii.eqb x c)) s.

Definition blank (s : string) : bool := forallb isspace s.

End PyStr.

(** ** Outcomes

    [Fatal msg code] is [logger.error(msg)] followed by [sys.exit(code)];
    [Uncaught e] is a Python exception nobody catches. *)

Inductive exn : Type :=
  | KeyError (key : string)
  | IndexError.

Inductive result (A : Type) : Type :=
  | Ok (a : A)
  | Fatal (logged : string) (code : Z)
  | Uncaught (e : exn).

Arguments Ok {A} a.
Arguments Fatal {A} logged code.
Arguments Uncaught {A} e.

#[global] Instance result_bind : MBind result := λ A B k m,
  match m with
  | Ok a => k a
  | Fatal msg code => Fatal msg code
  | Uncaught e => Uncaught e
  end.

Definition terminated {A} (r : result A) : Prop :=
  match r with Ok _ => False | _ => True end.

Definition exit_status {A} (r : result A) : option Z :=
  match r with
  | Ok _ => None
  | Fatal _ code => Some code
  | Uncaught _ => Some 1
  end.

(** ** The line parser *)

(** The triple [(varname, frequency, operator)]; Python's
    [(None, None, None)] is [None]. *)
Definition declaration : Type := string * list string * list string.

(** The loop [for freq_op in line_split[1].split(',')], with the two
    accumulators [freq] and [op]. *)
Fixpoint parse_entries (rest : string) (entries : list string)
    (freq op : list string) : result (list string * list string) :=
  match entries with
  | [] => Ok (freq, op)
  | freq_op :: entries' =>
      match PyStr.split "_" (PyStr.strip freq_op) with
      | [f; o] => parse_entries rest entries' (freq ++ [f]) (op ++ [o])
      | _ =>
          Fatal ("Can not determine frequency and operator from following entry: '"
                 +:+ rest +:+ "'") 1
      end
  end.

Definition _parse_line (line_in : string) : result (option declaration) :=
  match PyStr.split "#" line_in with
  | [] => Uncaught IndexError
  | before :: _ =>
      let line_loc := PyStr.strip before in
      if (String.length line_loc =? 0)%nat then Ok None
      else
        match PyStr.split ":" line_loc with
        | [name; rest] =>
            '(freq, op) ← parse_entries rest (PyStr.split "," rest) [] [];
            Ok (Some (PyStr.strip name, freq, op))
        | _ =>
            Fatal ("Can not determine variable name from following line: '"
                   +:+ line_in +:+ "'") 1
        end
  end.


(** ** The template registry

    A template is a Python dict with nine keys.  Eight of them hold values
    that are never touched again; the ninth, ["fields"], holds a list object
    (one dict [{"module", "packing", "lists"}] inside) that [update] and
    [dump_to_json] mutate in place.  [dict.copy()] is shallow: the copy
    shares that list object with the original.  The embedding therefore
    keeps the objects under ["fields"] in a store and lets a template hold
    the address of its own: [Template loc] is the dict in memory,
    [Template (list Field)] the same dict with the object written out, as
    [json.dump] sees it. *)

Inductive Scalar : Type :=
  | SStr (s : string)
  | SInt (z : Z).

(** A plain value, or a dict keyed by logical expressions that the model
    evaluates later. *)
Inductive Value : Type :=
  | Const (c : Scalar)
  | Cond (table : list (string * Scalar)).

(** Python truth value, as in [if new_file_freq_units:]. *)
Definition truthy (v : Value) : bool :=
  match v with
  | Const (SStr s) => negb (String.eqb s "")
  | Const (SInt z) => negb (z =? 0)
  | Cond table => negb (bool_decide (table = []))
  end.

Record Field : Type := mkField {
  module : string;
  packing : Z;
  lists : list (list string)
}.

Record Template (F : Type) : Type := mkTemplate {
  suffix : Value;
  output_freq : Value;
  new_file_freq : Value;
  output_freq_units : Value;
  new_file_freq_units : Value;
  time_axis_units : string;
  reduction_method : string;
  regional_section : string;
  fields : F
}.

Arguments mkTemplate {F}.
Arguments suffix {F}.
Arguments output_freq {F}.
Arguments new_file_freq {F}.
Arguments output_freq_units {F}.
Arguments new_file_freq_units {F}.
Arguments time_axis_units {F}.
Arguments reduction_method {F}.
Arguments regional_section {F}.
Arguments fields {F}.

Abbreviation loc := nat.

(** The same template dict with another value under ["fields"]. *)
Definition with_fields {F G : Type} (t : Template F) (x : G) : Template G :=
  mkTemplate (suffix t) (output_freq t) (new_file_freq t) (output_freq_units t)
    (new_file_freq_units t) (time_axis_units t) (reduction_method t)
    (regional_section t) x.

(** Python dicts whose key order is observable (insertion order). *)
Section PyDict.
Context {V : Type}.

Fixpoint dict_get (key : string) (d : list (string * V)) : option V :=
  match d with
  | [] => None
  | (k, v) :: d' => if String.eqb k key then Some v else dict_get key d'
  end.

(** [d[key] = v]: an existing key keeps its place, a new one goes last. *)
Fixpoint dict_set (key : string) (v : V) (d : list (string * V)) : list (string * V) :=
  match d with
  | [] => [(key, v)]
  | (k, w) :: d' =>
      if String.eqb k key then (k, v) :: d' else (k, w) :: dict_set key v d'
  end.

Definition dict_keys (d : list (string * V)) : list string := d.*1.
End PyDict.

(** What a run leaves behind: the file written by [json.dump], or the line
    printed instead. *)
Record document : Type := mkDocument {
  Files : list (string * Template (list Field))
}.

Inductive effect : Type :=
  | Written (filename : string) (doc : document)
  | Printed (msg : string).

Module DiagTableClass.

(** The object: [self._diag_table_dict], and the store of the list
    objects its templates point to. *)
Record obj : Type := mkObj {
  _diag_table_dict : list (string * Template loc);
  heap : list (list Field)
}.

Definition one : Value := Const (SInt 1).

(** The one-character string holding a double quote. *)
Definition dquote : string := String "034"%char EmptyString.

(** [_dict_template]: the defaults of the Python signature
    ([new_file_freq_units=None, output_freq=1, new_file_freq=1,
    module="ocean_model", packing=1]) are passed by the caller.  The
    fresh list object [[{..., "lists": [[]]}]] is allocated at the end
    of the store. *)
Definition _dict_template (suffix output_freq_units : Value)
    (new_file_freq_units : option Value) (output_freq new_file_freq : Value)
    (module : string) (packing : Z) (h : list (list Field))
    : list (list Field) * Template loc :=
  (h ++ [[mkField module packing [[]]]],
   mkTemplate suffix output_freq new_file_freq output_freq_units
     (match new_file_freq_units with
      | Some u => if truthy u then u else output_freq_units
      | None => output_freq_units
      end)
     "days" "mean" "none" (length h)).

(** [self._diag_table_dict[key] = self._dict_template(...)] *)
Definition store (key : string)
    (mk : list (list Field) → list (list Field) * Template loc) (self : obj) : obj :=
  let '(h, template) := mk (heap self) in
  mkObj (dict_set key template (_diag_table_dict self)) h.

Definition __init__ (vert_grid : string) : obj :=
  let interpolated := bool_decide (vert_grid ∈ ["interpolated"; "both"]) in
  let native := bool_decide (vert_grid ∈ ["native"; "both"]) in
  let str s := Const (SStr s) in
  let spinup := "$OCN_DIAG_MODE == " +:+ dquote +:+ "spinup" +:+ dquote in
  let test := "$TEST == True" in
  let self := mkObj [] [] in
  (* "medium" *)
  let output_freq_units_dict :=
    Cond [(spinup, SStr "years"); (test, SStr "days"); ("else", SStr "months")] in
  let suffix_dict :=
    Cond [(spinup, SStr "h_bgc_annual%4yr"); (test, SStr "h_bgc_daily%4yr-%2mo-%2dy");
          ("else", SStr "h_bgc_monthly%4yr-%2mo")] in
  let self := store "medium"
    (_dict_template suffix_dict output_freq_units_dict None one one "ocean_model" 1) self in
  let suffix_dict :=
    Cond [(spinup, SStr "h_bgc_annual_z%4yr"); (test, SStr "h_bgc_daily_z%4yr-%2mo-%2dy");
          ("else", SStr "h_bgc_monthly_z%4yr-%2mo")] in
  let self := if interpolated then store "medium_z"
    (_dict_template suffix_dict output_freq_units_dict None one one "ocean_model_z" 1) self
    else self in
  let suffix_dict :=
    Cond [(spinup, SStr "hm_bgc_annual_z%4yr"); (test, SStr "hm_bgc_daily_z%4yr-%2mo-%2dy");
          ("else", SStr "hm_bgc_monthly_z%4yr-%2mo")] in
  let self := if native then store "medium_native_z"
    (_dict_template suffix_dict output_freq_units_dict None one one "ocean_model" 1) self
    else self in
  (* "high" *)
  let output_freq_dict := Cond [(spinup, SInt 5); ("else", SInt 1)] in
  let new_file_freq_units_dict := Cond [(spinup, SStr "years"); ("else", SStr "months")] in
  let suffix_dict :=
    Cond [(spinup, SStr "h_bgc_daily5%4yr"); ("else", SStr "h_bgc_daily%4yr-%2mo")] in
  let self := store "high"
    (_dict_template suffix_dict (str "days") (Some new_file_freq_units_dict)
       output_freq_dict one "ocean_model" 1) self in
  let suffix_dict :=
    Cond [(spinup, SStr "h_bgc_daily5_z%4yr"); ("else", SStr "h_bgc_daily_z%4yr-%2mo")] in
  let self := if interpolated then store "high_z"
    (_dict_template suffix_dict (str "days") (Some new_file_freq_units_dict)
       output_freq_dict one "ocean_model_z" 1) self
    else self in
  let suffix_dict :=
    Cond [(spinup, SStr "hm_bgc_daily5_z%4yr"); ("else", SStr "hm_bgc_daily_z%4yr-%2mo")] in
  let self := if native then store "high_native_z"
    (_dict_template suffix_dict (str "days") (Some new_file_freq_units_dict)
       output_freq_dict one "ocean_model" 1) self
    else self in
  (* "low" *)
  let suffix_dict :=
    Cond [(spinup, SStr "h_bgc_annual2%4yr"); ("else", SStr "h_bgc_annual%4yr")] in
  let self := store "low"
    (_dict_template suffix_dict (str "years") None one one "ocean_model" 1) self in
  let suffix_dict :=
    Cond [(spinup, SStr "h_bgc_annual2_z%4yr"); ("else", SStr "h_bgc_annual_z%4yr")] in
  let self := if interpolated then store "low_z"
    (_dict_template suffix_dict (str "years") None one one "ocean_model_z" 1) self
    else self in
  let suffix_dict :=
    Cond [(spinup, SStr "hm_bgc_annual2_z%4yr"); ("else", SStr "hm_bgc_annual_z%4yr")] in
  let self := if native then store "low_native_z"
    (_dict_template suffix_dict (str "years") None one one "ocean_model" 1) self
    else self in
  self.

(** [xs[0]], with Python's [IndexError] on an empty list. *)
Definition first {A} (xs : list A) : result A :=
  match xs with
  | x :: _ => Ok x
  | [] => Uncaught IndexError
  end.

(** [self._diag_table_dict[key]] *)
Definition template (key : string) (self : obj) : result (Template loc) :=
  match dict_get key (_diag_table_dict self) with
  | Some t => Ok t
  | None => Uncaught (KeyError key)
  end.

(** The list object a template points to.  An address always points into
    the store; the second branch is there for totality only. *)
Definition deref (l : loc) (h : list (list Field)) : result (list Field) :=
  match h !! l with
  | Some cell => Ok cell
  | None => Uncaught IndexError
  end.

(** [self._diag_table_dict[key]["fields"][0]["lists"][0].append(varname)] *)
Definition append_var (key varname : string) (self : obj) : result obj :=
  t ← template key self;
  cell ← deref (fields t) (heap self);
  f ← first cell;
  l ← first (lists f);
  Ok (mkObj (_diag_table_dict self)
        (<[fields t := <[0%nat := mkField (module f) (packing f)
                                  (<[0%nat := l ++ [varname]]> (lists f))]> cell]>
           (heap self))).

(** The loop [for freq in use_freq] of [update]. *)
Fixpoint update_loop (use_freq : list string) (varname : string) (is2D : bool)
    (vert_grid : string) (self : obj) : result obj :=
  match use_freq with
  | [] => Ok self
  | freq :: use_freq' =>
      if String.eqb freq "never" then update_loop use_freq' varname is2D vert_grid self
      else
        self ← (if is2D then append_var freq varname self
                else
                  self ← (if bool_decide (vert_grid ∈ ["interpolated"; "both"])
                          then append_var (freq +:+ "_z") varname self
                          else Ok self);
                  if bool_decide (vert_grid ∈ ["native"; "both"])
                  then append_var (freq +:+ "_native_z") varname self
                  else Ok self);
        update_loop use_freq' varname is2D vert_grid self
  end.

Definition update (self : obj) (varname : string) (frequency : list string)
    (is2D lMARBL_output_all : bool) (vert_grid : string) : result obj :=
  let use_freq := if lMARBL_output_all then ["medium"] else [] ++ frequency in
  update_loop use_freq varname is2D vert_grid self.

Definition transports : list string :=
  ["volcello"; "vmo"; "vhGM"; "vhml"; "umo"; "uhGM"; "uhml"].

(** The loop [for freq in self._diag_table_dict] of [dump_to_json].
    [out_dict["Files"][freq]] is a shallow copy: the same template, the
    same address.  Appending [transports] through it writes to the list
    object the registry points to as well. *)
Fixpoint dump_loop (keys : list string) (self : obj)
    (files : list (string * Template loc))
    : result (obj * list (string * Template loc)) :=
  match keys with
  | [] => Ok (self, files)
  | freq :: keys' =>
      t ← template freq self;
      cell ← deref (fields t) (heap self);
      f ← first cell;
      l ← first (lists f);
      if (0 <? length l)%nat then
        let copy := t in
        let files := dict_set freq copy files in
        cell' ← deref (fields copy) (heap self);
        f' ← first cell';
        if String.eqb (module f') "ocean_model"
           && String.eqb (PyStr.last_chars 2 freq) "_z"
        then
          dump_loop keys'
            (mkObj (_diag_table_dict self)
               (<[fields copy := <[0%nat := mkField (module f') (packing f')
                                         (lists f' ++ [transports])]> cell']>
                  (heap self)))
            files
        else dump_loop keys' self files
      else dump_loop keys' self files
  end.

(** What [json.dump] reads: every template with its list object. *)
Fixpoint resolve (h : list (list Field)) (files : list (string * Template loc))
    : result (list (string * Template (list Field))) :=
  match files with
  | [] => Ok []
  | (k, t) :: files' =>
      cell ← deref (fields t) h;
      rest ← resolve h files';
      Ok ((k, with_fields t cell) :: rest)
  end.

Definition dump_to_json (self : obj) (filename : string) : result (obj * effect) :=
  '(self, files) ← dump_loop (dict_keys (_diag_table_dict self)) self [];
  if bool_decide (files ≠ []) then
    doc ← resolve (heap self) files;
    Ok (self, Written filename (mkDocument doc))
  else
    Ok (self, Printed "WARNING: no JSON file written as no variables were requested").

End DiagTableClass.

(** ** The conversion routine *)

(** Step ii of the loop body: [processed_vars] maps a frequency to the
    names already declared at it. *)
Fixpoint check_processed (ecosys_diagnostics_in varname : string)
    (frequency : list string) (processed_vars : gmap string (list string))
    : result (gmap string (list string)) :=
  match frequency with
  | [] => Ok processed_vars
  | freq :: frequency' =>
      let processed_vars :=
        if bool_decide (freq ∈ dom processed_vars) then processed_vars
        else <[freq := []]> processed_vars in
      let seen := default [] (processed_vars !! freq) in
      if bool_decide (varname ∈ seen) then
        Fatal (varname +:+ " appears in " +:+ ecosys_diagnostics_in
               +:+ " with frequency %" +:+ freq +:+ " multiple times") 1
      else
        check_processed ecosys_diagnostics_in varname frequency'
          (<[freq := seen ++ [varname]]> processed_vars)
  end.

Section Conversion.
(** The arguments of [diagnostics_to_diag_table] that stay fixed during
    the loop. *)
Variable ecosys_diagnostics_in : string.
Variable diag2D_list : list string.
Variable vert_grid : string.
Variable lMARBL_output_all lMARBL_output_alt_co2 : bool.

Definition loop_state : Type := gmap string (list string) * DiagTableClass.obj.

(** One iteration of [for line in all_lines]. *)
Definition process_line (st : loop_state) (line : string) : result loop_state :=
  let '(processed_vars, diag_table) := st in
  parsed ← _parse_line (PyStr.strip line);
  match parsed with
  | None => Ok st
  | Some (varname, frequency, operator) =>
      if negb lMARBL_output_alt_co2 && PyStr.contains "ALT_CO2" varname then Ok st
      else
        processed_vars ←
          check_processed ecosys_diagnostics_in varname frequency processed_vars;
        let is2D := bool_decide (varname ∈ diag2D_list) in
        diag_table ←
          DiagTableClass.update diag_table varname frequency is2D
            lMARBL_output_all vert_grid;
        Ok (processed_vars, diag_table)
  end.

Fixpoint process_lines (st : loop_state) (all_lines : list string) : result loop_state :=
  match all_lines with
  | [] => Ok st
  | line :: all_lines' =>
      st ← process_line st line;
      process_lines st all_lines'
  end.
End Conversion.

(** [files path] is [None] when [os.path.isfile(path)] is false, the result
    of [readlines()] otherwise. *)
Definition diagnostics_to_diag_table (files : string → option (list string))
    (ecosys_diagnostics_in : option string) (diag_table_out : string)
    (diag2D_list : list string) (vert_grid : string)
    (lMARBL_output_all lMARBL_output_alt_co2 : bool) : result effect :=
  match ecosys_diagnostics_in with
  | None => Fatal "Must specific ecosys_diagnostics_in" 1
  | Some path =>
      match files path with
      | None => Fatal ("File not found " +:+ path) 1
      | Some all_lines =>
          let diag_table := DiagTableClass.__init__ vert_grid in
          '(_, diag_table) ←
            process_lines path diag2D_list vert_grid lMARBL_output_all
              lMARBL_output_alt_co2 (∅, diag_table) all_lines;
          '(_, written) ← DiagTableClass.dump_to_json diag_table diag_table_out;
          Ok written
      end
  end.


(** ** What the registry looks like from outside

    The definitions below are not in the script: they name what the
    statements about the class talk about. *)

Module Registry.
Import DiagTableClass.

(** [self._diag_table_dict[key]["fields"][0]] and
    [self._diag_table_dict[key]["fields"][0]["lists"][0]], as values. *)
Definition field_of (key : string) (self : obj) : option Field :=
  t ← dict_get key (_diag_table_dict self);
  cell ← heap self !! fields t;
  cell !! 0%nat.

Definition variables (key : string) (self : obj) : option (list string) :=
  f ← field_of key self; lists f !! 0%nat.

(** The two in-place changes the class makes to a list object. *)
Definition push (varname : string) (f : Field) : Field :=
  mkField (module f) (packing f) (alter (λ l, l ++ [varname]) 0%nat (lists f)).

Definition add_transports (f : Field) : Field :=
  mkField (module f) (packing f) (lists f ++ [transports]).

Definition modify (key : string) (g : Field → Field) (self : obj) : obj :=
  match dict_get key (_diag_table_dict self) with
  | Some t =>
      mkObj (_diag_table_dict self) (alter (alter g 0%nat) (fields t) (heap self))
  | None => self
  end.

(** A list object of the shape [_dict_template] allocates: one dict, its
    ["lists"] starting with the variable list. *)
Definition wf_cell (h : list (list Field)) (t : Template loc) : Prop :=
  ∃ f l ls, h !! fields t = Some [f] ∧ lists f = l :: ls.

(** No two keys, no two templates sharing a list object, every list object
    of that shape. *)
Record wf (self : obj) : Prop := mkWf {
  wf_keys : NoDup (_diag_table_dict self).*1;
  wf_locs : NoDup ((λ kt, fields kt.2) <$> _diag_table_dict self);
  wf_cells : Forall (λ kt, wf_cell (heap self) kt.2) (_diag_table_dict self)
}.

Definition keeps_lists (g : Field → Field) : Prop :=
  ∀ f l ls, lists f = l :: ls → ∃ l' ls', lists (g f) = l' :: ls'.

(** The keys one frequency tag sends a variable to. *)
Definition targets (is2D : bool) (vert_grid freq : string) : list string :=
  if is2D then [freq]
  else (if bool_decide (vert_grid ∈ ["interpolated"; "both"]) then [freq +:+ "_z"] else [])
       ++ (if bool_decide (vert_grid ∈ ["native"; "both"])
           then [freq +:+ "_native_z"] else []).

Fixpoint placements (is2D : bool) (vert_grid : string) (use_freq : list string)
    : list string :=
  match use_freq with
  | [] => []
  | freq :: use_freq' =>
      (if String.eqb freq "never" then [] else targets is2D vert_grid freq)
      ++ placements is2D vert_grid use_freq'
  end.

Fixpoint append_all (keys : list string) (varname : string) (self : obj) : result obj :=
  match keys with
  | [] => Ok self
  | key :: keys' => self ← append_var key varname self; append_all keys' varname self
  end.

(** How often [key] occurs in [keys]. *)
Fixpoint count (key : string) (keys : list string) : nat :=
  match keys with
  | [] => 0
  | k :: keys' => (if String.eqb k key then 1 else 0) + count key keys'
  end.

Definition modify_all (keys : list string) (g : Field → Field) (self : obj) : obj :=
  foldl (λ s key, modify key g s) self keys.

(** [len(self._diag_table_dict[key]["fields"][0]["lists"][0]) > 0] *)
Definition has_variables (key : string) (self : obj) : bool :=
  match variables key self with
  | Some (_ :: _) => true
  | _ => false
  end.

(** The test that guards the append of [transports]. *)
Definition wants_transports (key : string) (f : Field) : bool :=
  String.eqb (module f) "ocean_model" && String.eqb (PyStr.last_chars 2 key) "_z".

(** What one iteration of the loop does to the store. *)
Definition dump_step (key : string) (self : obj) : obj :=
  match field_of key self with
  | Some f =>
      if has_variables key self && wants_transports key f
      then modify key add_transports self else self
  | None => self
  end.

Definition dump_all (d : list (string * Template loc)) (self : obj) : obj :=
  foldl (λ s kt, dump_step kt.1 s) self d.

(** The value of a list object after the loop. *)
Definition dumped (key : string) (f : Field) : Field :=
  if wants_transports key f then add_transports f else f.

Definition warning : string :=
  "WARNING: no JSON file written as no variables were requested".

(** The stores a run can be in: built by [__init__], then changed by
    calls of [update] and [dump_to_json] that return.  The flag records
    whether [dump_to_json] has been called. *)
Inductive reachable (vert_grid : string) : bool → obj → Prop :=
  | reach_init : reachable vert_grid false (__init__ vert_grid)
  | reach_update after_dump self self' varname frequency is2D output_all vg :
      reachable vert_grid after_dump self →
      update self varname frequency is2D output_all vg = Ok self' →
      reachable vert_grid after_dump self'
  | reach_dump after_dump self self' filename eff :
      reachable vert_grid after_dump self →
      dump_to_json self filename = Ok (self', eff) →
      reachable vert_grid true self'.

(** Everything under ["fields"][0] but the variable list. *)
Definition frame_of (key : string) (self : obj)
    : option (string * Z * list (list string)) :=
  (λ f, (module f, packing f, tail (lists f))) <$> field_of key self.

(** Before the first dump every ["lists"] holds the variable list only. *)
Definition single_list (self : obj) : Prop :=
  ∀ key f, field_of key self = Some f → ∃ l, lists f = [l].

(** [names] appended to the variable list. *)
Definition pushes (names : list string) (f : Field) : Field :=
  mkField (module f) (packing f) (alter (λ l, l ++ names) 0%nat (lists f)).

End Registry.

(** ** What the statements about lines and runs talk about

    Not in the script either: the shape of a well-formed line, and what a
    run has recorded. *)

Import PyStr.

(** A string that does not start with white space. *)
Definition ltrimmed (s : string) : Prop :=
  match s with
  | "" => True
  | String x _ => isspace x = false
  end.

(** One entry [FREQ_OP] as it stands between two commas, with the white
    space around it. *)
Record entry_text : Type := mkEntry {
  lead : string;
  freq_tag : string;
  op_tag : string;
  trail : string
}.

Definition render_entry (e : entry_text) : string :=
  lead e +:+ freq_tag e +:+ "_" +:+ op_tag e +:+ trail e.

(** [NAME : FREQ1_OP1[, FREQ2_OP2, ...]], then nothing or a comment. *)
Definition render_line (pad0 name pad1 : string) (entries : list entry_text)
    (tail : string) : string :=
  pad0 +:+ name +:+ pad1 +:+ ":" +:+ join "," (render_entry <$> entries) +:+ tail.

Definition nospace (s : string) : bool := forallb (λ x, negb (isspace x)) s.

(** A frequency or an operator: no white space and none of the characters
    the format gives a meaning to. *)
Definition tag_ok (s : string) : bool :=
  nospace s && lacks "#" s && lacks ":" s && lacks "," s && lacks "_" s.

(** A variable name: not empty, no white space, no '#' and no ':'. *)
Definition name_ok (s : string) : bool :=
  negb (String.eqb s "") && nospace s && lacks "#" s && lacks ":" s.

Definition entry_ok (e : entry_text) : bool :=
  blank (lead e) && tag_ok (freq_tag e) && tag_ok (op_tag e) && blank (trail e).

Definition comment_ok (tail : string) : bool :=
  match tail with
  | "" => true
  | String c _ => Ascii.eqb c "#"
  end.

(** [varname] has been recorded at [freq]. *)
Definition seen (processed_vars : gmap string (list string)) (freq varname : string) : Prop :=
  varname ∈ default [] (processed_vars !! freq).

(** Every fatal exit of a computation has status 1. *)
Definition exits_with_1 {A} (r : result A) : Prop :=
  match r with
  | Fatal _ code => code = 1
  | _ => True
  end.

(** ** What the further statements talk about *)

Import DiagTableClass Registry.

(** The keys [__init__] creates, in the order it creates them. *)
Definition tier_keys (vert_grid : string) : list string :=
  tier ← ["medium"; "high"; "low"];
  [tier]
  ++ (if bool_decide (vert_grid ∈ ["interpolated"; "both"]) then [tier +:+ "_z"] else [])
  ++ (if bool_decide (vert_grid ∈ ["native"; "both"]) then [tier +:+ "_native_z"] else []).

(** [name] stands in the variable list of tier [key]. *)
Definition in_variables (self : obj) (key name : string) : Prop :=
  ∃ l, variables key self = Some l ∧ name ∈ l.

(** [name] stands in the first list of tier [key] of the document. *)
Definition listed (doc : document) (key name : string) : Prop :=
  ∃ T f l, (key, T) ∈ Files doc ∧ fields T !! 0%nat = Some f ∧
           lists f !! 0%nat = Some l ∧ name ∈ l.

(** The line is a declaration of [name] that is not skipped as ALT_CO2. *)
Definition declaration_of (lMARBL_output_alt_co2 : bool) (line name : string)
    (frequency : list string) : Prop :=
  ∃ operator,
    _parse_line (strip line) = Ok (Some (name, frequency, operator)) ∧
    negb lMARBL_output_alt_co2 && contains "ALT_CO2" name = false.

(** The tier [key] is where a variable at frequency [freq] belongs: the
    base tier when 2D, the variants of the vertical grid when 3D. *)
Definition belongs_to (is2D : bool) (vert_grid freq key : string) : Prop :=
  freq ≠ "never" ∧
  if is2D then key = freq
  else (vert_grid ∈ ["interpolated"; "both"] ∧ key = freq +:+ "_z") ∨
       (vert_grid ∈ ["native"; "both"] ∧ key = freq +:+ "_native_z").

(** The line puts [name] into tier [key]: it declares it at a frequency
    that belongs to the tier, or at any frequency when everything goes to
    "medium". *)
Definition line_places (diag2D_list : list string) (vert_grid : string)
    (lMARBL_output_all lMARBL_output_alt_co2 : bool) (line key name : string) : Prop :=
  ∃ frequency freq,
    declaration_of lMARBL_output_alt_co2 line name frequency ∧
    freq ∈ (if lMARBL_output_all then ["medium"] else frequency) ∧
    belongs_to (bool_decide (name ∈ diag2D_list)) vert_grid freq key.

(** The line declares [name] at [freq]. *)
Definition line_records (lMARBL_output_alt_co2 : bool) (line freq name : string) : Prop :=
  ∃ frequency,
    declaration_of lMARBL_output_alt_co2 line name frequency ∧ freq ∈ frequency.

(** * Properties *)

(** ** Dicts *)

Section PyDictFacts.
Context {V : Type}.
Implicit Types (d : list (string * V)) (k : string) (v : V).

Lemma dict_get_Some_elem k v d : dict_get k d = Some v → (k, v) ∈ d.
Proof.
  induction d as [|[k' w] d IH]; simpl; [done|].
  destruct (String.eqb_spec k' k) as [->|Hne].
  - intros [= ->]. apply list_elem_of_here.
  - intros H. apply list_elem_of_further, IH, H.
Qed.

Lemma dict_get_None k d : dict_get k d = None ↔ k ∉ d.*1.
Proof.
  induction d as [|[k' w] d IH]; simpl.
  - split; [intros _; apply not_elem_of_nil | done].
  - rewrite not_elem_of_cons. destruct (String.eqb_spec k' k) as [->|Hne].
    + split; [done | intros [? _]; done].
    + rewrite IH. split; [intros ?; split; [congruence | done] | intros [_ ?]; done].
Qed.

Lemma dict_get_is_Some k d : is_Some (dict_get k d) ↔ k ∈ d.*1.
Proof.
  destruct (dict_get k d) eqn:E.
  - split; [intros _ | eauto].
    apply dict_get_Some_elem in E. by apply (list_elem_of_fmap_2 fst) in E.
  - apply dict_get_None in E. split; [intros [? [=]] | done].
Qed.

Lemma dict_get_elem k v d : NoDup d.*1 → (k, v) ∈ d → dict_get k d = Some v.
Proof.
  induction d as [|[k' w] d IH]; simpl; intros Hnd Hin.
  - by apply elem_of_nil in Hin.
  - apply NoDup_cons in Hnd as [Hk' Hnd]. apply elem_of_cons in Hin as [[= -> ->]|Hin].
    + by rewrite String.eqb_refl.
    + destruct (String.eqb_spec k' k) as [->|Hne]; [|by apply IH].
      exfalso. apply Hk'. by apply (list_elem_of_fmap_2 fst) in Hin.
Qed.

Lemma dict_set_new k v d : k ∉ d.*1 → dict_set k v d = d ++ [(k, v)].
Proof.
  induction d as [|[k' w] d IH]; simpl; [done|].
  rewrite not_elem_of_cons. intros [Hne Hk].
  destruct (String.eqb_spec k' k) as [->|_]; [done|]. by rewrite IH.
Qed.
End PyDictFacts.

(** ** The registry: what the operations do to a well-formed store *)

Import DiagTableClass Registry.

Lemma push_keeps_lists v : keeps_lists (push v).
Proof. intros f l ls H. unfold push; simpl. rewrite H. simpl. eauto. Qed.

Lemma add_transports_keeps_lists : keeps_lists add_transports.
Proof. intros f l ls H. unfold add_transports; simpl. rewrite H. simpl. eauto. Qed.

Lemma modify_dict key g self :
  _diag_table_dict (modify key g self) = _diag_table_dict self.
Proof. unfold modify. by destruct (dict_get _ _). Qed.

Lemma wf_cell_of self key t :
  wf self → dict_get key (_diag_table_dict self) = Some t → wf_cell (heap self) t.
Proof.
  intros Hwf Hget. apply dict_get_Some_elem in Hget.
  pose proof (wf_cells _ Hwf) as Hc. rewrite Forall_forall in Hc.
  apply (Hc _ Hget).
Qed.

Lemma wf_loc_inj self k1 k2 t1 t2 :
  wf self →
  dict_get k1 (_diag_table_dict self) = Some t1 →
  dict_get k2 (_diag_table_dict self) = Some t2 →
  fields t1 = fields t2 → k1 = k2.
Proof.
  intros Hwf H1 H2 Heq.
  apply dict_get_Some_elem in H1, H2.
  apply list_elem_of_lookup_1 in H1 as [i Hi], H2 as [j Hj].
  pose proof (wf_locs _ Hwf) as Hnd.
  assert (i = j) as ->.
  { eapply NoDup_lookup; [exact Hnd| |];
      rewrite list_lookup_fmap; [rewrite Hi | rewrite Hj]; simpl; [done|].
    by rewrite Heq. }
  congruence.
Qed.

Lemma modify_wf key g self : keeps_lists g → wf self → wf (modify key g self).
Proof.
  intros Hg Hwf. unfold modify.
  destruct (dict_get key _) as [t|] eqn:Hget; [|done].
  destruct Hwf as [Hk Hl Hc]. split; simpl; [done..|].
  eapply Forall_impl; [exact Hc|]. intros [k t'] (f & l & ls & Hh & Hlists); simpl in *.
  unfold wf_cell. destruct (decide (fields t = fields t')) as [Heq|Hne].
  - rewrite <- Heq in *. rewrite list_lookup_alter_eq, Hh. simpl.
    destruct (Hg _ _ _ Hlists) as (l' & ls' & Hl'). eauto.
  - rewrite list_lookup_alter_ne by done. eauto.
Qed.

Lemma field_of_modify key g self k :
  wf self →
  field_of k (modify key g self) =
    if decide (k = key) then g <$> field_of k self else field_of k self.
Proof.
  intros Hwf. unfold field_of, modify.
  destruct (dict_get key _) as [t|] eqn:Hget; simpl.
  - destruct (dict_get k _) as [tk|] eqn:Hk; simpl; [|by case_decide].
    case_decide as Hkk.
    + subst k. assert (tk = t) as -> by congruence.
      rewrite list_lookup_alter_eq.
      destruct (wf_cell_of _ _ _ Hwf Hget) as (f & l & ls & -> & _). done.
    + rewrite list_lookup_alter_ne; [done|].
      intros Heq. apply Hkk. symmetry. eapply wf_loc_inj; eauto.
  - case_decide as Hkk; [|done]. subst k. by rewrite Hget.
Qed.

Lemma insert_alter_cell (h : list (list Field)) i cell f g :
  h !! i = Some cell → cell !! 0%nat = Some f →
  <[i := <[0%nat := g f]> cell]> h = alter (alter g 0%nat) i h.
Proof.
  intros Hh Hc. apply list_eq. intros j. destruct (decide (j = i)) as [->|Hne].
  - rewrite list_lookup_alter_eq, Hh, list_lookup_insert_eq by (by eapply lookup_lt_Some).
    simpl. destruct cell; simplify_eq/=. done.
  - by rewrite list_lookup_alter_ne, list_lookup_insert_ne.
Qed.

Lemma append_var_modify key v self :
  wf self → is_Some (dict_get key (_diag_table_dict self)) →
  append_var key v self = Ok (modify key (push v) self).
Proof.
  intros Hwf [t Hget]. unfold append_var, modify, template, deref. rewrite Hget. simpl.
  destruct (wf_cell_of _ _ _ Hwf Hget) as (f & l & ls & Hh & Hlists).
  rewrite Hh. simpl. rewrite Hlists. simpl. do 2 f_equal.
  rewrite <- (insert_alter_cell _ _ [f] f) by done.
  unfold push. by rewrite Hlists.
Qed.

Lemma append_var_KeyError key v self :
  dict_get key (_diag_table_dict self) = None →
  append_var key v self = Uncaught (KeyError key).
Proof. intros H. unfold append_var, template. by rewrite H. Qed.

(** *** [update] as a sequence of appends *)

Lemma append_all_app ks1 ks2 v self :
  append_all (ks1 ++ ks2) v self = (self ← append_all ks1 v self; append_all ks2 v self).
Proof.
  revert self. induction ks1 as [|k ks1 IH]; intros self; simpl; [done|].
  destruct (append_var k v self); simpl; [apply IH | done..].
Qed.

Lemma update_loop_append_all use_freq v is2D vert_grid self :
  update_loop use_freq v is2D vert_grid self =
    append_all (placements is2D vert_grid use_freq) v self.
Proof.
  revert self. induction use_freq as [|freq use_freq IH]; intros self; simpl; [done|].
  destruct (String.eqb freq "never"); simpl; [apply IH|].
  rewrite append_all_app. unfold targets.
  destruct is2D; simpl.
  - destruct (append_var freq v self); simpl; [apply IH | done..].
  - destruct (bool_decide (vert_grid ∈ ["interpolated"; "both"])); simpl.
    + destruct (append_var (freq +:+ "_z") v self) as [s1| |]; simpl; [|done..].
      destruct (bool_decide (vert_grid ∈ ["native"; "both"])); simpl.
      * destruct (append_var (freq +:+ "_native_z") v s1); simpl; [apply IH | done..].
      * apply IH.
    + destruct (bool_decide (vert_grid ∈ ["native"; "both"])); simpl.
      * destruct (append_var (freq +:+ "_native_z") v self); simpl; [apply IH | done..].
      * apply IH.
Qed.

Lemma modify_all_dict keys g self :
  _diag_table_dict (modify_all keys g self) = _diag_table_dict self.
Proof.
  revert self. induction keys as [|k keys IH]; intros self; simpl; [done|].
  unfold modify_all in *. simpl. by rewrite IH, modify_dict.
Qed.

Lemma modify_all_wf keys g self : keeps_lists g → wf self → wf (modify_all keys g self).
Proof.
  intros Hg. revert self. induction keys as [|k keys IH]; intros self Hwf; simpl; [done|].
  apply IH. by apply modify_wf.
Qed.

Lemma field_of_modify_all keys g self k :
  wf self → keeps_lists g →
  field_of k (modify_all keys g self) =
    Nat.iter (count k keys) g <$> field_of k self.
Proof.
  intros Hwf Hg. revert self Hwf.
  induction keys as [|key keys IH]; intros self Hwf; simpl.
  - by destruct (field_of k self).
  - unfold modify_all in *. simpl. rewrite IH by (by apply modify_wf).
    rewrite field_of_modify by done.
    destruct (String.eqb_spec key k) as [->|Hne].
    + rewrite decide_True by done. destruct (field_of k self); simpl; [|done].
      f_equal. symmetry. apply Nat.iter_succ_r.
    + by rewrite decide_False by done.
Qed.

Lemma append_all_present keys v self :
  wf self → Forall (λ k, is_Some (dict_get k (_diag_table_dict self))) keys →
  append_all keys v self = Ok (modify_all keys (push v) self).
Proof.
  revert self. induction keys as [|k keys IH]; intros self Hwf Hall; simpl; [done|].
  apply Forall_cons in Hall as [Hk Hall].
  rewrite append_var_modify by done. simpl.
  apply IH; [by apply modify_wf, Hwf; apply push_keeps_lists|].
  by rewrite modify_dict.
Qed.

Lemma append_all_Ok keys v self self' :
  wf self → append_all keys v self = Ok self' →
  self' = modify_all keys (push v) self ∧
  Forall (λ k, is_Some (dict_get k (_diag_table_dict self))) keys.
Proof.
  revert self. induction keys as [|k keys IH]; intros self Hwf; simpl.
  - intros [= <-]. done.
  - destruct (dict_get k (_diag_table_dict self)) as [t|] eqn:Hget.
    + rewrite append_var_modify by eauto. simpl. intros H.
      apply IH in H as [-> Hall]; [|by apply modify_wf, Hwf; apply push_keeps_lists].
      rewrite modify_dict in Hall. split; [done|]. constructor; eauto.
    + by rewrite append_var_KeyError.
Qed.

Lemma append_all_missing keys v self :
  wf self → ¬ Forall (λ k, is_Some (dict_get k (_diag_table_dict self))) keys →
  ∃ k, k ∈ keys ∧ dict_get k (_diag_table_dict self) = None ∧
       append_all keys v self = Uncaught (KeyError k).
Proof.
  revert self. induction keys as [|k keys IH]; intros self Hwf Hno; simpl.
  - destruct Hno. constructor.
  - destruct (dict_get k (_diag_table_dict self)) as [t|] eqn:Hget.
    + rewrite append_var_modify by eauto. simpl.
      destruct (IH (modify k (push v) self)) as (k' & Hin & Hk' & Happ).
      * by apply modify_wf, Hwf; apply push_keeps_lists.
      * rewrite modify_dict. intros Hall. apply Hno. constructor; eauto.
      * rewrite modify_dict in Hk'. exists k'. split_and!; [by right | done..].
    + exists k. rewrite append_var_KeyError by done. split_and!; [by left | done..].
Qed.

(** *** [dump_to_json] *)

Lemma dump_step_dict key self :
  _diag_table_dict (dump_step key self) = _diag_table_dict self.
Proof.
  unfold dump_step. destruct (field_of key self); [|done].
  destruct (_ && _); [apply modify_dict | done].
Qed.

Lemma dump_step_wf key self : wf self → wf (dump_step key self).
Proof.
  intros Hwf. unfold dump_step. destruct (field_of key self); [|done].
  destruct (_ && _); [|done]. by apply modify_wf, Hwf; apply add_transports_keeps_lists.
Qed.

Lemma field_of_dump_step key self k :
  wf self →
  field_of k (dump_step key self) =
    if decide (k = key) then
      (λ f, if has_variables k self && wants_transports k f
            then add_transports f else f) <$> field_of k self
    else field_of k self.
Proof.
  intros Hwf. unfold dump_step.
  destruct (field_of key self) as [f|] eqn:Hf.
  - destruct (has_variables key self && wants_transports key f) eqn:Hc.
    + rewrite field_of_modify by done. case_decide; [subst k|done].
      rewrite Hf. simpl. by rewrite Hc.
    + case_decide; [subst k|done]. rewrite Hf. simpl. by rewrite Hc.
  - case_decide; [subst k|done]. by rewrite Hf.
Qed.

Lemma variables_add_transports f :
  lists (add_transports f) !! 0%nat = lists f !! 0%nat ∨ lists f = [].
Proof. destruct f as [m p [|l ls]]; simpl; eauto. Qed.

Lemma has_variables_dump_step key self k :
  wf self → has_variables k (dump_step key self) = has_variables k self.
Proof.
  intros Hwf. unfold has_variables, variables. rewrite field_of_dump_step by done.
  case_decide; [subst k|done].
  destruct (field_of key self) as [f|] eqn:Hf; simpl; [|done].
  destruct (_ && _); [|done].
  destruct f as [m p [|l ls]]; simpl; [|done].
  revert Hf. unfold field_of.
  destruct (dict_get key _) as [t|] eqn:Hget; simpl; [|done].
  destruct (wf_cell_of _ _ _ Hwf Hget) as (f' & l' & ls' & -> & Hl). simpl.
  intros [= ->]. done.
Qed.

Lemma filter_ext_elem {A} (P Q : A → Prop) `{!∀ x, Decision (P x)} `{!∀ x, Decision (Q x)}
    (l : list A) :
  (∀ x, x ∈ l → P x ↔ Q x) → filter P l = filter Q l.
Proof.
  induction l as [|x l IH]; intros Hext; [done|].
  rewrite !filter_cons.
  rewrite IH by (intros y Hy; apply Hext; by right).
  pose proof (Hext x (list_elem_of_here _ _)) as Hx.
  repeat case_decide; tauto.
Qed.

Lemma dump_loop_spec d self files :
  wf self →
  (∀ kt, kt ∈ d → kt ∈ _diag_table_dict self) →
  NoDup d.*1 →
  (∀ k, k ∈ d.*1 → k ∉ files.*1) →
  dump_loop d.*1 self files =
    Ok (dump_all d self, files ++ filter (λ kt, has_variables kt.1 self) d).
Proof.
  revert self files. induction d as [|[k t] d IH]; intros self files Hwf Hsub Hnd Hfresh.
  { simpl. by rewrite app_nil_r. }
  apply NoDup_cons in Hnd as [Hk Hnd].
  assert (dict_get k (_diag_table_dict self) = Some t) as Hget.
  { apply dict_get_elem; [apply Hwf | apply Hsub; by left]. }
  destruct (wf_cell_of _ _ _ Hwf Hget) as (f & l & ls & Hh & Hlists).
  assert (field_of k self = Some f) as Hf.
  { unfold field_of. rewrite Hget. simpl. by rewrite Hh. }
  assert (has_variables k self = (0 <? length l)%nat) as Hhas.
  { unfold has_variables, variables. rewrite Hf. simpl. rewrite Hlists. by destruct l. }
  assert (filter (λ kt, has_variables kt.1 (dump_step k self)) d
          = filter (λ kt, has_variables kt.1 self) d) as Hfilter.
  { apply filter_ext_elem. intros kt _. by rewrite has_variables_dump_step. }
  assert (dump_step k self =
          if (0 <? length l)%nat && wants_transports k f
          then modify k add_transports self else self) as Hstep.
  { unfold dump_step. by rewrite Hf, Hhas. }
  assert (modify k add_transports self =
          mkObj (_diag_table_dict self)
            (<[fields t := [mkField (module f) (packing f) (l :: ls ++ [transports])]]>
               (heap self))) as Hmod.
  { unfold modify. rewrite Hget. f_equal.
    rewrite <- (insert_alter_cell _ _ [f] f) by done.
    simpl. unfold add_transports. by rewrite Hlists. }
  pose proof (IH (dump_step k self)) as IH'.
  rewrite Hfilter, dump_step_dict in IH'.
  assert (∀ files', (∀ k', k' ∈ d.*1 → k' ∉ files'.*1) →
            dump_loop d.*1 (dump_step k self) files' =
            Ok (dump_all d (dump_step k self),
                files' ++ filter (λ kt, has_variables kt.1 self) d)) as Hrest.
  { intros files' Hfresh'. apply IH'; [by apply dump_step_wf| |done..].
    intros kt Hin. apply Hsub. by right. }
  clear IH IH'.
  assert (∀ k', k' ∈ d.*1 → k' ∉ (files ++ [(k, t)]).*1) as Hfresh1.
  { intros k' Hin. rewrite fmap_app, elem_of_app. simpl.
    intros [?|Heq%list_elem_of_singleton]; [|by subst].
    eapply Hfresh; [right; exact Hin | done]. }
  assert (∀ k', k' ∈ d.*1 → k' ∉ files.*1) as Hfresh0.
  { intros k' Hin. apply Hfresh. by right. }
  cbn [fmap list_fmap fst dump_loop]. change (list_fmap _ _ fst d) with (d.*1).
  unfold template, deref. rewrite Hget. simpl. rewrite Hh. simpl. rewrite Hlists. simpl.
  change (String.eqb (module f) "ocean_model" && String.eqb (PyStr.last_chars 2 k) "_z")
    with (wants_transports k f).
  rewrite <- Hmod.
  unfold dump_all. simpl. fold (dump_all d (dump_step k self)).
  rewrite filter_cons. simpl. rewrite Hhas.
  destruct (0 <? length l)%nat eqn:Hlen; simpl in *.
  - rewrite dict_set_new by (apply Hfresh; by left).
    destruct (wants_transports k f) eqn:Hw;
      [rewrite <- Hstep | rewrite Hstep in Hrest |- *];
      rewrite (Hrest (files ++ [(k, t)])) by done; by rewrite <- app_assoc.
  - rewrite Hstep in Hrest |- *. by apply Hrest.
Qed.

Lemma dump_all_dict d self :
  _diag_table_dict (dump_all d self) = _diag_table_dict self.
Proof.
  revert self. induction d as [|kt d IH]; intros self; [done|].
  unfold dump_all in *. simpl. by rewrite IH, dump_step_dict.
Qed.

Lemma dump_all_wf d self : wf self → wf (dump_all d self).
Proof.
  revert self. induction d as [|kt d IH]; intros self Hwf; [done|].
  apply IH. by apply dump_step_wf.
Qed.

Lemma wants_transports_dumped key f :
  wants_transports key (dumped key f) = wants_transports key f.
Proof. unfold dumped. by destruct (wants_transports key f) eqn:E. Qed.

Lemma field_of_dump_all d self k :
  wf self → NoDup d.*1 →
  field_of k (dump_all d self) =
    if bool_decide (k ∈ d.*1) && has_variables k self
    then dumped k <$> field_of k self else field_of k self.
Proof.
  revert self. induction d as [|[k0 t0] d IH]; intros self Hwf Hnd; [done|].
  apply NoDup_cons in Hnd as [Hk0 Hnd].
  unfold dump_all in *. cbn [foldl fst]. rewrite IH by (done || by apply dump_step_wf).
  rewrite has_variables_dump_step, field_of_dump_step by done.
  cbn [fmap list_fmap fst]. change (list_fmap _ _ fst d) with (d.*1).
  destruct (decide (k = k0)) as [->|Hne].
  - rewrite (bool_decide_eq_false_2 _ Hk0). simpl.
    rewrite bool_decide_eq_true_2 by (by left). simpl.
    destruct (field_of k0 self) as [f|]; simpl; [|by destruct (has_variables _ _)].
    unfold dumped. by destruct (has_variables k0 self), (wants_transports k0 f).
  - destruct (decide (k ∈ d.*1)) as [Hin|Hin].
    + rewrite (bool_decide_eq_true_2 _ Hin).
      by rewrite bool_decide_eq_true_2 by (by right).
    + rewrite (bool_decide_eq_false_2 _ Hin).
      by rewrite bool_decide_eq_false_2 by (by rewrite not_elem_of_cons).
Qed.

Lemma resolve_spec (P : string * Template loc → Prop) self files :
  wf self → Forall (λ kt, kt ∈ _diag_table_dict self ∧ P kt) files →
  ∃ doc, resolve (heap self) files = Ok doc ∧
    Forall2 (λ entry kt, P kt ∧ ∃ f, field_of kt.1 self = Some f ∧
                                     entry = (kt.1, with_fields kt.2 [f])) doc files.
Proof.
  intros Hwf. induction files as [|[k t] files IH]; intros Hall; simpl.
  - exists []. split; [done | constructor].
  - apply Forall_cons in Hall as [[Hin HP] Hall].
    destruct (IH Hall) as (doc & -> & Hdoc).
    assert (dict_get k (_diag_table_dict self) = Some t) as Hget.
    { apply dict_get_elem; [apply Hwf | done]. }
    destruct (wf_cell_of _ _ _ Hwf Hget) as (f & l & ls & Hh & Hlists).
    unfold deref. rewrite Hh. simpl. eexists. split; [done|].
    constructor; [|done]. split; [done|]. exists f. split; [|done].
    unfold field_of. simpl. rewrite Hget. simpl. by rewrite Hh.
Qed.

Lemma dump_to_json_spec self filename :
  wf self →
  let files := filter (λ kt, has_variables kt.1 self) (_diag_table_dict self) in
  ∃ eff,
    dump_to_json self filename = Ok (dump_all (_diag_table_dict self) self, eff) ∧
    ((files = [] ∧ eff = Printed warning) ∨
     (files ≠ [] ∧ ∃ doc, eff = Written filename (mkDocument doc) ∧
        Forall2 (λ entry kt, ∃ f, field_of kt.1 self = Some f ∧
                   entry = (kt.1, with_fields kt.2 [dumped kt.1 f])) doc files)).
Proof.
  intros Hwf files. unfold dump_to_json, dict_keys.
  rewrite dump_loop_spec; [|done|done|apply Hwf|intros k _; apply not_elem_of_nil].
  simpl. fold files. destruct (decide (files = [])) as [Hnil|Hnil].
  - rewrite bool_decide_eq_false_2 by (by intros ?). eexists. split; [done|]. by left.
  - rewrite bool_decide_eq_true_2 by done.
    destruct (resolve_spec (λ kt, kt ∈ files)
                (dump_all (_diag_table_dict self) self) files) as (doc & -> & Hdoc).
    + by apply dump_all_wf.
    + rewrite dump_all_dict. apply Forall_forall. intros kt Hin. split; [|done].
      unfold files in Hin. by apply list_elem_of_filter in Hin as [_ Hin].
    + simpl. eexists. split; [done|]. right. split; [done|]. exists doc. split; [done|].
      eapply Forall2_impl; [exact Hdoc|].
      intros entry [k t] (Hin & f & Hf & ->). simpl in *.
      unfold files in Hin. apply list_elem_of_filter in Hin as [Hhas Hin]. simpl in Hhas.
      rewrite field_of_dump_all in Hf by (done || apply Hwf).
      rewrite bool_decide_eq_true_2 in Hf by (by apply (list_elem_of_fmap_2 fst) in Hin).
      apply Is_true_true in Hhas. rewrite Hhas in Hf. simpl in Hf.
      destruct (field_of k self) as [f0|]; simplify_eq/=. eauto.
Qed.

(** *** Reachable stores *)

Lemma iter_push n v f : Nat.iter n (push v) f = pushes (replicate n v) f.
Proof.
  induction n as [|n IH]; simpl.
  - destruct f as [m p [|l ls]]; unfold pushes; simpl; [done|]. by rewrite app_nil_r.
  - rewrite IH. destruct f as [m p [|l ls]]; unfold pushes, push; simpl; [done|].
    rewrite <- app_assoc. simpl. do 3 f_equal.
    change (v :: replicate n v) with (replicate (S n) v). by rewrite replicate_S_end.
Qed.

Lemma init_wf vert_grid : wf (__init__ vert_grid).
Proof.
  unfold __init__.
  destruct (bool_decide (vert_grid ∈ ["interpolated"; "both"])),
           (bool_decide (vert_grid ∈ ["native"; "both"]));
    (split; cbn;
     [apply (bool_decide_unpack _); by vm_compute
     |apply (bool_decide_unpack _); by vm_compute
     |repeat constructor; eexists _, _, _; split; reflexivity]).
Qed.

Lemma single_list_intro self :
  Forall (λ kt, ∃ f l, heap self !! fields kt.2 = Some [f] ∧ lists f = [l])
    (_diag_table_dict self) →
  single_list self.
Proof.
  intros Hall key f. unfold field_of.
  destruct (dict_get key _) as [t|] eqn:Hget; simpl; [|done].
  apply dict_get_Some_elem in Hget. rewrite Forall_forall in Hall.
  destruct (Hall _ Hget) as (f' & l & Hh & Hl). simpl in Hh. rewrite Hh. simpl.
  intros [= <-]. eauto.
Qed.

Lemma init_single_list vert_grid : single_list (__init__ vert_grid).
Proof.
  apply single_list_intro. unfold __init__.
  destruct (bool_decide (vert_grid ∈ ["interpolated"; "both"])),
           (bool_decide (vert_grid ∈ ["native"; "both"])); cbn;
    repeat constructor; eexists _, _; split; reflexivity.
Qed.

Lemma update_Ok_inv self v frequency is2D output_all vg self' :
  wf self → update self v frequency is2D output_all vg = Ok self' →
  ∃ keys, self' = modify_all keys (push v) self.
Proof.
  intros Hwf. unfold update. rewrite update_loop_append_all.
  intros H%append_all_Ok; [|done]. destruct H as [-> _]. eauto.
Qed.

Lemma reachable_inv vert_grid after_dump self :
  reachable vert_grid after_dump self →
  wf self ∧
  _diag_table_dict self = _diag_table_dict (__init__ vert_grid) ∧
  (after_dump = false → single_list self).
Proof.
  induction 1 as [|b self self' v frequency is2D output_all vg _ (Hwf & Hd & Hs) Hup
                  |b self self' filename eff _ (Hwf & Hd & Hs) Hdump].
  - split_and!; [apply init_wf | done | intros _; apply init_single_list].
  - destruct (update_Ok_inv _ _ _ _ _ _ _ Hwf Hup) as [keys ->].
    split_and!.
    + apply modify_all_wf; [apply push_keeps_lists | done].
    + by rewrite modify_all_dict.
    + intros Hb key f. rewrite field_of_modify_all by (done || apply push_keeps_lists).
      destruct (field_of key self) as [f0|] eqn:Hf0; simpl; [|done].
      intros [= <-]. destruct (Hs Hb _ _ Hf0) as [l Hl].
      rewrite iter_push. unfold pushes; simpl. rewrite Hl. simpl. eauto.
  - destruct (dump_to_json_spec self filename Hwf) as (eff' & Heq & _).
    rewrite Heq in Hdump. simplify_eq. split_and!; [|by rewrite dump_all_dict|done].
    by apply dump_all_wf.
Qed.

(** [update] on a well-formed store whose dict has every key the call
    indexes: it returns, and each list object has received the variable
    once per time its key was indexed. *)
Lemma update_spec self v frequency is2D output_all vg :
  wf self →
  let keys := placements is2D vg (if output_all : bool then ["medium"] else frequency) in
  Forall (λ k, is_Some (dict_get k (_diag_table_dict self))) keys →
  ∃ self', update self v frequency is2D output_all vg = Ok self' ∧
    _diag_table_dict self' = _diag_table_dict self ∧
    ∀ key, field_of key self' =
             pushes (replicate (count key keys) v) <$> field_of key self.
Proof.
  intros Hwf keys Hall. exists (modify_all keys (push v) self). split_and!.
  - unfold update. rewrite update_loop_append_all. simpl. by apply append_all_present.
  - apply modify_all_dict.
  - intros key. rewrite field_of_modify_all by (done || apply push_keeps_lists).
    destruct (field_of key self); simpl; [|done]. by rewrite iter_push.
Qed.

Lemma frame_of_pushes key self self' names :
  field_of key self' = pushes names <$> field_of key self →
  frame_of key self' = frame_of key self.
Proof.
  unfold frame_of. intros ->. destruct (field_of key self) as [[m p [|l ls]]|]; done.
Qed.

Lemma variables_pushes key self self' names l :
  field_of key self' = pushes names <$> field_of key self →
  variables key self = Some l → variables key self' = Some (l ++ names).
Proof.
  unfold variables. intros ->.
  destruct (field_of key self) as [[m p [|l0 ls]]|]; simpl; [done| |done].
  by intros [= ->].
Qed.

Lemma pushes_nil f : pushes [] f = f.
Proof. destruct f as [m p [|l ls]]; unfold pushes; simpl; [done|]. by rewrite app_nil_r. Qed.

Lemma wf_variables self key :
  wf self → is_Some (dict_get key (_diag_table_dict self)) →
  is_Some (variables key self).
Proof.
  intros Hwf [t Hget]. destruct (wf_cell_of _ _ _ Hwf Hget) as (f & l & ls & Hh & Hl).
  unfold variables, field_of. rewrite Hget. simpl. rewrite Hh. simpl. rewrite Hl. eauto.
Qed.

(** *** [update], frequency by frequency *)

Lemma count_app key ks1 ks2 : count key (ks1 ++ ks2) = (count key ks1 + count key ks2)%nat.
Proof. induction ks1 as [|k ks1 IH]; simpl; [done|]. rewrite IH. lia. Qed.

Lemma count_not_elem key keys : key ∉ keys → count key keys = 0%nat.
Proof.
  induction keys as [|k keys IH]; simpl; [done|]. rewrite not_elem_of_cons.
  intros [Hne Hk]. rewrite IH by done. by destruct (String.eqb_spec k key).
Qed.

Lemma targets_both is2D freq :
  targets is2D "both" freq =
    if is2D then [freq] else [freq +:+ "_z"; freq +:+ "_native_z"].
Proof. by destruct is2D. Qed.

Ltac tag_cases H :=
  rewrite ?elem_of_cons, ?elem_of_nil in H;
  repeat (destruct H as [->|H]); [..|destruct H].

Lemma placements_both_present frequency is2D :
  Forall (λ freq, freq ∈ ["low"; "medium"; "high"; "never"]) frequency →
  Forall (λ k, is_Some (dict_get k (_diag_table_dict (__init__ "both"))))
    (placements is2D "both" frequency).
Proof.
  induction 1 as [|freq frequency Hfreq _ IH]; [constructor|].
  cbn [placements]. rewrite targets_both. apply Forall_app. split; [|done].
  tag_cases Hfreq; destruct is2D; apply (bool_decide_unpack _); by vm_compute.
Qed.

Lemma count_placements_both frequency tier is2D :
  Forall (λ freq, freq ∈ ["low"; "medium"; "high"; "never"]) frequency →
  tier ∈ ["low"; "medium"; "high"] →
  count tier (placements is2D "both" frequency)
    = (if is2D then count tier frequency else 0%nat) ∧
  count (tier +:+ "_z") (placements is2D "both" frequency)
    = (if is2D then 0%nat else count tier frequency) ∧
  count (tier +:+ "_native_z") (placements is2D "both" frequency)
    = (if is2D then 0%nat else count tier frequency).
Proof.
  intros Hall Htier. induction Hall as [|freq frequency Hfreq _ (IH1 & IH2 & IH3)].
  { by destruct is2D. }
  cbn [placements]. rewrite targets_both, !count_app, IH1, IH2, IH3.
  tag_cases Hfreq; tag_cases Htier; by destruct is2D.
Qed.

(** C1. With [lMARBL_output_all] false and vertical grid "both", [update]
    returns on every store built for "both" when the frequencies are
    tier tags; for each of the tiers low, medium and high, a 2D variable
    is appended to the base variable list once per occurrence of the tag
    and the "_z" and "_native_z" lists stay as they are, a 3D variable is
    appended to the "_z" and "_native_z" lists and the base list stays as
    it is; nothing else of any template changes. *)
Theorem update_both_by_dimension (after_dump : bool) (self : obj) (varname : string)
    (frequency : list string) (is2D : bool) :
  reachable "both" after_dump self →
  Forall (λ freq, freq ∈ ["low"; "medium"; "high"; "never"]) frequency →
  ∃ self',
    update self varname frequency is2D false "both" = Ok self' ∧
    _diag_table_dict self' = _diag_table_dict self ∧
    (∀ key, frame_of key self' = frame_of key self) ∧
    ∀ tier, tier ∈ ["low"; "medium"; "high"] →
      let added := replicate (count tier frequency) varname in
      ∃ l lz ln,
        variables tier self = Some l ∧
        variables (tier +:+ "_z") self = Some lz ∧
        variables (tier +:+ "_native_z") self = Some ln ∧
        variables tier self' = Some (l ++ if is2D then added else []) ∧
        variables (tier +:+ "_z") self' = Some (lz ++ if is2D then [] else added) ∧
        variables (tier +:+ "_native_z") self'
          = Some (ln ++ if is2D then [] else added).
Proof.
  intros (Hwf & Hd & _)%reachable_inv Htags.
  destruct (update_spec self varname frequency is2D false "both" Hwf)
    as (self' & Hup & Hd' & Hf).
  { rewrite Hd. by apply placements_both_present. }
  exists self'. split_and!; [done..| |].
  { intros key. eapply frame_of_pushes, Hf. }
  intros tier Htier added.
  destruct (count_placements_both frequency tier is2D Htags Htier) as (C1 & C2 & C3).
  assert (∀ key, key ∈ [tier; tier +:+ "_z"; tier +:+ "_native_z"] →
                 is_Some (variables key self)) as Hsome.
  { intros key Hkey. apply wf_variables; [done|]. rewrite Hd.
    tag_cases Htier; tag_cases Hkey; apply (bool_decide_unpack _); by vm_compute. }
  destruct (Hsome tier) as [l Hl]; [by left|].
  destruct (Hsome (tier +:+ "_z")) as [lz Hlz]; [by right; left|].
  destruct (Hsome (tier +:+ "_native_z")) as [ln Hln]; [by right; right; left|].
  exists l, lz, ln. split_and!; [done..| | |].
  - rewrite (variables_pushes _ _ _ _ _ (Hf _) Hl), C1. by destruct is2D.
  - rewrite (variables_pushes _ _ _ _ _ (Hf _) Hlz), C2. by destruct is2D.
  - rewrite (variables_pushes _ _ _ _ _ (Hf _) Hln), C3. by destruct is2D.
Qed.

Lemma update_both_by_dimension_witness :
  ∃ self',
    update (__init__ "both") "FOO" ["low"] false false "both" = Ok self' ∧
    variables "low" self' = Some [] ∧
    variables "low_z" self' = Some ["FOO"] ∧
    variables "low_native_z" self' = Some ["FOO"].
Proof.
  destruct (update_both_by_dimension false (__init__ "both") "FOO" ["low"] false)
    as (self' & Hup & _ & _ & Htier).
  - apply reach_init.
  - repeat constructor.
  - exists self'. split; [exact Hup|].
    destruct (Htier "low") as (l & lz & ln & Hl & Hlz & Hln & H1 & H2 & H3).
    + repeat constructor.
    + vm_compute in Hl, Hlz, Hln. simplify_eq.
      split_and!; [exact H1 | exact H2 | exact H3].
Defined.

(** C3. With [lMARBL_output_all] true, [update] returns on every store
    built for the vertical grid of the call, whatever the frequency list;
    the variable is appended once to the medium base list when 2D, to the
    medium variants of the vertical grid when 3D; no other list object
    and no other part of any template changes. *)
Theorem update_output_all_medium_only (vert_grid : string) (after_dump : bool)
    (self : obj) (varname : string) (frequency : list string) (is2D : bool) :
  reachable vert_grid after_dump self →
  let placed : list string :=
    if is2D then ["medium"]
    else (if bool_decide (vert_grid ∈ ["interpolated"; "both"]) then ["medium_z"] else [])
         ++ (if bool_decide (vert_grid ∈ ["native"; "both"])
             then ["medium_native_z"] else []) in
  ∃ self',
    (∀ frequency', update self varname frequency' is2D true vert_grid = Ok self') ∧
    update self varname frequency is2D true vert_grid = Ok self' ∧
    _diag_table_dict self' = _diag_table_dict self ∧
    (∀ key, frame_of key self' = frame_of key self) ∧
    (∀ key, key ∈ placed →
       ∃ l, variables key self = Some l ∧ variables key self' = Some (l ++ [varname])) ∧
    (∀ key, key ∉ placed → field_of key self' = field_of key self).
Proof.
  intros (Hwf & Hd & _)%reachable_inv placed.
  assert (placements is2D vert_grid ["medium"] = placed) as Hplaced.
  { unfold placed. simpl. unfold targets. rewrite app_nil_r. by destruct is2D. }
  assert (Forall (λ k, is_Some (dict_get k (_diag_table_dict self))) placed) as Hpresent.
  { rewrite Hd. unfold placed, __init__.
    destruct (bool_decide (vert_grid ∈ ["interpolated"; "both"])),
             (bool_decide (vert_grid ∈ ["native"; "both"])), is2D;
      apply (bool_decide_unpack _); by vm_compute. }
  assert (∀ key, key ∈ placed → count key placed = 1%nat) as Hcount.
  { unfold placed. intros key.
    destruct (bool_decide (vert_grid ∈ ["interpolated"; "both"])),
             (bool_decide (vert_grid ∈ ["native"; "both"])), is2D;
      simpl; intros Hkey; tag_cases Hkey; done. }
  destruct (update_spec self varname frequency is2D true vert_grid Hwf)
    as (self' & Hup & Hd' & Hf).
  { by rewrite Hplaced. }
  cbn zeta in Hf. rewrite Hplaced in Hf.
  exists self'. split_and!; [done..| | |].
  - intros key. eapply frame_of_pushes, Hf.
  - intros key Hkey.
    destruct (wf_variables self key Hwf) as [l Hl].
    { rewrite Forall_forall in Hpresent. by apply Hpresent. }
    exists l. split; [done|].
    rewrite (variables_pushes _ _ _ _ _ (Hf _) Hl). by rewrite Hcount.
  - intros key Hkey. rewrite Hf, count_not_elem by done. simpl.
    destruct (field_of key self); simpl; [|done]. by rewrite pushes_nil.
Qed.

Lemma update_output_all_medium_only_witness :
  ∃ self',
    update (__init__ "native") "FOO" ["low"; "high"] false true "native" = Ok self' ∧
    variables "medium_native_z" self' = Some ["FOO"] ∧
    field_of "low_native_z" self' = field_of "low_native_z" (__init__ "native") ∧
    field_of "high_native_z" self' = field_of "high_native_z" (__init__ "native").
Proof.
  destruct (update_output_all_medium_only "native" false (__init__ "native") "FOO"
              ["low"; "high"] false (reach_init _))
    as (self' & _ & Hup & _ & _ & Hin & Hout).
  exists self'. split; [exact Hup|]. split_and!.
  - destruct (Hin "medium_native_z") as (l & Hl & H1); [by vm_compute; left|].
    vm_compute in Hl. simplify_eq. exact H1.
  - apply Hout. apply (bool_decide_unpack _). by vm_compute.
  - apply Hout. apply (bool_decide_unpack _). by vm_compute.
Defined.

(** *** [dump_to_json] on reachable stores *)

Lemma filter_keys (P : string → Prop) `{!∀ k, Decision (P k)}
    (d : list (string * Template loc)) :
  (filter (λ kt, P kt.1) d).*1 = filter P d.*1.
Proof.
  induction d as [|[k t] d IH]; [done|].
  cbn [fmap list_fmap fst]. rewrite !filter_cons. simpl.
  case_decide; simpl; by rewrite <- IH.
Qed.

(** C2. On every reachable store [dump_to_json] returns, and every tier
    of the document it writes carries the list object of the registry
    with the list of the seven transport names appended at the end of
    ["lists"] exactly when the module is "ocean_model" and the tier name
    ends in "_z"; any other tier carries the list object as it was.
    Before the first dump ["lists"] holds the variable list only, so the
    transport list comes second. *)
Theorem dump_appends_transports (vert_grid : string) (after_dump : bool)
    (self : obj) (filename : string) :
  reachable vert_grid after_dump self →
  ∃ self' eff,
    dump_to_json self filename = Ok (self', eff) ∧
    ∀ doc key T,
      eff = Written filename doc → (key, T) ∈ Files doc →
      ∃ t f,
        dict_get key (_diag_table_dict self) = Some t ∧
        field_of key self = Some f ∧
        (after_dump = false → ∃ l, lists f = [l]) ∧
        T = with_fields t
              [if String.eqb (module f) "ocean_model"
                  && String.eqb (PyStr.last_chars 2 key) "_z"
               then mkField (module f) (packing f)
                      (lists f ++ [["volcello"; "vmo"; "vhGM"; "vhml";
                                    "umo"; "uhGM"; "uhml"]])
               else f].
Proof.
  intros (Hwf & Hd & Hs)%reachable_inv.
  destruct (dump_to_json_spec self filename Hwf) as (eff & Hdump & Heff).
  eexists _, eff. split; [exact Hdump|].
  intros doc key T -> Hin.
  destruct Heff as [[_ [=]]|(_ & doc' & [= ->] & Hdoc)]. simpl in Hin.
  apply list_elem_of_lookup_1 in Hin as [i Hi].
  destruct (Forall2_lookup_l _ _ _ _ _ Hdoc Hi) as ([k t] & Hkt & f & Hf & [= -> ->]).
  simpl in *. apply list_elem_of_lookup_2, list_elem_of_filter in Hkt as [_ Hkt].
  exists t, f. split_and!; [|done| |done].
  - apply dict_get_elem; [apply Hwf | done].
  - intros Hb. by apply (Hs Hb k).
Qed.

Lemma dump_appends_transports_witness :
  ∃ self1 self2 doc,
    update (__init__ "both") "FOO" ["low"] false false "both" = Ok self1 ∧
    dump_to_json self1 "diag_table" = Ok (self2, Written "diag_table" doc) ∧
    (fields <$> dict_get "low_z" (Files doc))
      = Some [mkField "ocean_model_z" 1 [["FOO"]]] ∧
    (fields <$> dict_get "low_native_z" (Files doc))
      = Some [mkField "ocean_model" 1
                [["FOO"]; ["volcello"; "vmo"; "vhGM"; "vhml"; "umo"; "uhGM"; "uhml"]]].
Proof.
  destruct (update (__init__ "both") "FOO" ["low"] false false "both")
    as [self1| |] eqn:Hup; [|vm_compute in Hup; discriminate..].
  assert (reachable "both" false self1) as Hreach
    by (eapply reach_update; [apply reach_init | exact Hup]).
  destruct (dump_appends_transports "both" false self1 "diag_table" Hreach)
    as (self2 & eff & Hdump & Hdoc).
  vm_compute in Hup. injection Hup as <-.
  pose proof Hdump as Hrun. vm_compute in Hrun. injection Hrun as <- <-.
  eexists _, _, _. split; [reflexivity|]. split; [exact Hdump|].
  split; reflexivity.
Defined.

(** C7. On every reachable store [dump_to_json] returns without error;
    the keys of the document it writes are exactly the keys of the
    registry whose variable list is not empty, in registry order; when
    there is no such key it writes no file and prints the warning. *)
Theorem dump_serializes_nonempty_tiers (vert_grid : string) (after_dump : bool)
    (self : obj) (filename : string) :
  reachable vert_grid after_dump self →
  let nonempty :=
    filter (λ key, has_variables key self) (dict_keys (_diag_table_dict self)) in
  ∃ self' eff,
    dump_to_json self filename = Ok (self', eff) ∧
    match eff with
    | Written name doc =>
        name = filename ∧ nonempty ≠ [] ∧ dict_keys (Files doc) = nonempty
    | Printed msg =>
        nonempty = [] ∧
        msg = "WARNING: no JSON file written as no variables were requested"
    end.
Proof.
  intros (Hwf & Hd & Hs)%reachable_inv nonempty.
  destruct (dump_to_json_spec self filename Hwf) as (eff & Hdump & Heff).
  assert (nonempty =
          (filter (λ kt, has_variables kt.1 self) (_diag_table_dict self)).*1) as Hkeys.
  { unfold nonempty, dict_keys. symmetry.
    exact (filter_keys (λ k, has_variables k self) _). }
  eexists _, eff. split; [exact Hdump|].
  destruct Heff as [[Hnil ->]|(Hnil & doc & -> & Hdoc)].
  - split; [|done]. by rewrite Hkeys, Hnil.
  - split_and!; [done| |].
    + rewrite Hkeys. intros Hmap. apply Hnil. by apply fmap_nil_inv in Hmap.
    + rewrite Hkeys. unfold dict_keys. simpl.
      clear -Hdoc. induction Hdoc as [|entry kt doc files (f & _ & ->) _ IH]; [done|].
      cbn [fmap list_fmap fst]. by f_equal.
Qed.

Lemma dump_serializes_nonempty_tiers_witness :
  (∃ self', dump_to_json (__init__ "both") "diag_table"
            = Ok (self', Printed "WARNING: no JSON file written as no variables were requested")) ∧
  ∃ self1 self2 doc,
    update (__init__ "both") "FOO" ["low"] true false "both" = Ok self1 ∧
    dump_to_json self1 "diag_table" = Ok (self2, Written "diag_table" doc) ∧
    dict_keys (Files doc) = ["low"].
Proof.
  split.
  - destruct (dump_serializes_nonempty_tiers "both" false (__init__ "both") "diag_table"
                (reach_init _)) as (self' & eff & Hdump & Heff).
    destruct eff as [name doc|msg].
    + destruct Heff as (_ & Hne & _). destruct Hne. reflexivity.
    + destruct Heff as [_ ->]. eauto.
  - destruct (update (__init__ "both") "FOO" ["low"] true false "both")
      as [self1| |] eqn:Hup; [|vm_compute in Hup; discriminate..].
    assert (reachable "both" false self1) as Hreach
      by (eapply reach_update; [apply reach_init | exact Hup]).
    destruct (dump_serializes_nonempty_tiers "both" false self1 "diag_table" Hreach)
      as (self2 & eff & Hdump & Heff).
    vm_compute in Hup. injection Hup as <-.
    destruct eff as [name doc|msg].
    + destruct Heff as (-> & _ & Hkeys). eexists _, self2, doc.
      split; [reflexivity|]. split; [exact Hdump|]. exact Hkeys.
    + destruct Heff as [Hnil _]. vm_compute in Hnil. discriminate.
Defined.

(** C4 at a concrete input: after one update of a 3D variable on the
    native grid, [dump_to_json] leaves a second list in the ["lists"] of
    the registry's own "low_native_z" template, and a second dump a
    third one. *)
Theorem dump_changes_registry_lists :
  ∃ self1 self2 self3 eff2 eff3,
    update (__init__ "native") "FOO" ["low"] false false "native" = Ok self1 ∧
    dump_to_json self1 "diag_table" = Ok (self2, eff2) ∧
    dump_to_json self2 "diag_table" = Ok (self3, eff3) ∧
    (lists <$> field_of "low_native_z" self1) = Some [["FOO"]] ∧
    (lists <$> field_of "low_native_z" self2) = Some [["FOO"]; transports] ∧
    (lists <$> field_of "low_native_z" self3) = Some [["FOO"]; transports; transports].
Proof. eexists _, _, _, _, _. split_and!; by vm_compute. Qed.

(** ** Strings *)

Section PyStrFacts.
Import PyStr.
Implicit Types (s a b p t : string) (c x : ascii).

Lemma sapp_nil_l s : "" +:+ s = s.
Proof. done. Qed.

Lemma sapp_cons c a b : String c a +:+ b = String c (a +:+ b).
Proof. done. Qed.

Lemma sapp_nil_r s : s +:+ "" = s.
Proof. induction s as [|c s IH]; [done|]. by rewrite ?sapp_cons, IH. Qed.

Lemma sapp_assoc a b t : (a +:+ b) +:+ t = a +:+ b +:+ t.
Proof. induction a as [|c a IH]; [done|]. by rewrite ?sapp_cons, IH. Qed.

Lemma forallb_app q a b : forallb q (a +:+ b) = forallb q a && forallb q b.
Proof.
  induction a as [|c a IH]; [done|]. rewrite ?sapp_cons. simpl.
  by rewrite IH, andb_assoc.
Qed.

Lemma lacks_app c a b : lacks c (a +:+ b) = lacks c a && lacks c b.
Proof. apply forallb_app. Qed.

Lemma blank_lacks c p : isspace c = false → blank p = true → lacks c p = true.
Proof.
  intros Hc. unfold blank, lacks. induction p as [|x p IH]; simpl; [done|].
  intros [Hx Hp]%andb_true_iff. rewrite IH by done.
  destruct (Ascii.eqb_spec x c) as [->|_]; [|done]. by rewrite Hc in Hx.
Qed.

(** *** [split] *)

Lemma split_not_nil c s : split c s ≠ [].
Proof. destruct s as [|x s]; simpl; [done|]. destruct (Ascii.eqb x c), (split c s); done. Qed.

Lemma split_lacks c s : lacks c s = true → split c s = [s].
Proof.
  unfold lacks. induction s as [|x s IH]; simpl; [done|].
  intros [Hx Hs]%andb_true_iff. rewrite IH by done.
  by destruct (Ascii.eqb x c).
Qed.

Lemma split_app c a b : lacks c a = true → split c (a +:+ String c b) = a :: split c b.
Proof.
  unfold lacks. induction a as [|x a IH]; simpl.
  - intros _. rewrite ?sapp_nil_l. simpl. by rewrite Ascii.eqb_refl.
  - intros [Hx Ha]%andb_true_iff. rewrite ?sapp_cons. simpl. rewrite IH by done.
    by destruct (Ascii.eqb x c).
Qed.

Lemma split_head_lacks c s p ps : split c s = p :: ps → lacks c p = true.
Proof.
  unfold lacks. revert p ps. induction s as [|x s IH]; simpl; intros p ps.
  - by intros [= <- <-].
  - destruct (Ascii.eqb x c) eqn:Hx; [by intros [= <- _]|].
    destruct (split c s) as [|q qs]; intros [= <- <-]; simpl; rewrite Hx; simpl; [done|].
    by eapply IH.
Qed.

(** *** [strip] *)

Lemma lstrip_blank_app p s : blank p = true → lstrip (p +:+ s) = lstrip s.
Proof.
  unfold blank. induction p as [|x p IH]; simpl; [done|].
  intros [Hx Hp]%andb_true_iff. rewrite ?sapp_cons. simpl.
  rewrite Hx. by apply IH.
Qed.

Lemma lstrip_nospace_app a s :
  forallb (λ x, negb (isspace x)) a = true → a ≠ "" → lstrip (a +:+ s) = a +:+ s.
Proof.
  destruct a as [|x a]; [done|]. simpl. intros [Hx _]%andb_true_iff _.
  rewrite ?sapp_cons. simpl. by destruct (isspace x).
Qed.

Lemma rstrip_blank p : blank p = true → rstrip p = "".
Proof.
  unfold blank. induction p as [|x p IH]; simpl; [done|].
  intros [Hx Hp]%andb_true_iff. rewrite IH by done. by rewrite Hx.
Qed.

Lemma rstrip_cons_nospace x s : isspace x = false → rstrip (String x s) = String x (rstrip s).
Proof. intros Hx. simpl. rewrite Hx. by destruct (rstrip s). Qed.

Lemma rstrip_app a b : rstrip b ≠ "" → rstrip (a +:+ b) = a +:+ rstrip b.
Proof.
  intros Hb. induction a as [|x a IH]; [done|].
  rewrite ?sapp_cons. simpl. rewrite IH.
  destruct (a +:+ rstrip b) eqn:E; [|done].
  destruct a; [|done]. rewrite ?sapp_nil_l in E. done.
Qed.

Lemma rstrip_nospace_blank a p :
  forallb (λ x, negb (isspace x)) a = true → blank p = true → rstrip (a +:+ p) = a.
Proof.
  intros Ha Hp. induction a as [|x a IH]; simpl in *.
  - by apply rstrip_blank.
  - apply andb_true_iff in Ha as [Hx Ha]. rewrite ?sapp_cons. simpl. rewrite IH by done.
    destruct (isspace x); [done|]. by destruct a.
Qed.

Lemma rstrip_idemp s : rstrip (rstrip s) = rstrip s.
Proof.
  induction s as [|x s IH]; simpl; [done|].
  destruct (rstrip s) as [|y r] eqn:E.
  - destruct (isspace x) eqn:Hx; simpl; [done|]. by rewrite Hx.
  - change (rstrip (String x (String y r))) with
      (match rstrip (String y r) with
       | "" => if isspace x then "" else String x ""
       | r' => String x r'
       end).
    by rewrite IH.
Qed.

Lemma lstrip_ltrimmed s : ltrimmed (lstrip s).
Proof. induction s as [|x s IH]; simpl; [done|]. by destruct (isspace x) eqn:Hx. Qed.

Lemma ltrimmed_lstrip s : ltrimmed s → lstrip s = s.
Proof. destruct s as [|x s]; simpl; [done|]. by intros ->. Qed.

Lemma rstrip_ltrimmed s : ltrimmed s → ltrimmed (rstrip s).
Proof.
  destruct s as [|x s]; [done|]. intros Hx. simpl in Hx.
  by rewrite rstrip_cons_nospace.
Qed.

Lemma strip_idemp s : strip (strip s) = strip s.
Proof.
  unfold strip. rewrite (ltrimmed_lstrip (rstrip (lstrip s))).
  - apply rstrip_idemp.
  - apply rstrip_ltrimmed, lstrip_ltrimmed.
Qed.

Lemma lstrip_lacks c s : lacks c s = true → lacks c (lstrip s) = true.
Proof.
  unfold lacks. induction s as [|x s IH]; simpl; [done|].
  intros [Hx Hs]%andb_true_iff. destruct (isspace x); [by apply IH|].
  simpl. by rewrite Hx, Hs.
Qed.

Lemma rstrip_lacks c s : lacks c s = true → lacks c (rstrip s) = true.
Proof.
  unfold lacks. induction s as [|x s IH]; simpl; [done|].
  intros [Hx Hs]%andb_true_iff. specialize (IH Hs).
  destruct (rstrip s) as [|y r].
  - destruct (isspace x); simpl; [done|]. by rewrite Hx.
  - simpl in *. by rewrite Hx, IH.
Qed.

Lemma strip_lacks c s : lacks c s = true → lacks c (strip s) = true.
Proof. intros H. by apply rstrip_lacks, lstrip_lacks. Qed.

End PyStrFacts.

(** ** The line parser *)

Import PyStr.

Lemma parse_entries_bad rest entries entry freq op :
  entry ∈ entries → length (split "_" (strip entry)) ≠ 2%nat →
  ∃ msg, parse_entries rest entries freq op = Fatal msg 1.
Proof.
  revert freq op. induction entries as [|e entries IH]; intros freq op Hin Hbad.
  { by apply elem_of_nil in Hin. }
  simpl. destruct (split "_" (strip e)) as [|f [|o [|]]] eqn:He; eauto.
  apply elem_of_cons in Hin as [->|Hin]; [|by apply IH].
  rewrite He in Hbad. done.
Qed.

(** C6. A line that is not blank once its comment is cut and it is
    stripped, and that does not split into exactly two parts on ':', or has
    an entry between commas that does not split into exactly two parts on
    '_', makes the parser log an error and exit with status 1. *)
Theorem parse_line_malformed_fatal (line_in before : string) (more : list string) :
  split "#" line_in = before :: more →
  strip before ≠ "" →
  length (split ":" (strip before)) ≠ 2%nat ∨
  (∃ name rest entry,
     split ":" (strip before) = [name; rest] ∧
     entry ∈ split "," rest ∧
     length (split "_" (strip entry)) ≠ 2%nat) →
  ∃ msg, _parse_line line_in = Fatal msg 1 ∧ exit_status (_parse_line line_in) = Some 1.
Proof.
  intros Hsplit Hne Hbad. unfold _parse_line. rewrite Hsplit.
  destruct (strip before) as [|c loc] eqn:Hloc; [done|].
  cbn [String.length Nat.eqb].
  destruct Hbad as [Hlen|(name & rest & entry & -> & Hin & Hentry)].
  - destruct (split ":" (String c loc)) as [|name [|rest [|]]]; eauto. done.
  - destruct (parse_entries_bad rest _ entry [] [] Hin Hentry) as [msg ->]. eauto.
Qed.

Lemma parse_line_malformed_fatal_witness :
  ∃ msg, _parse_line "FOO low_mean" = Fatal msg 1 ∧
         exit_status (_parse_line "FOO low_mean") = Some 1.
Proof.
  apply (parse_line_malformed_fatal "FOO low_mean" "FOO low_mean" []).
  - reflexivity.
  - vm_compute. discriminate.
  - left. vm_compute. lia.
Defined.

(** C9. When the parser returns on a line, it returns the same on that line
    with its comment cut and its white space stripped. *)
Theorem parse_line_idempotent (line_in : string) (parsed : option declaration) :
  _parse_line line_in = Ok parsed →
  ∃ before more,
    split "#" line_in = before :: more ∧
    _parse_line (strip before) = Ok parsed.
Proof.
  unfold _parse_line at 1.
  destruct (split "#" line_in) as [|before more] eqn:Hsplit; [done|].
  intros H. exists before, more. split; [done|].
  unfold _parse_line.
  rewrite split_lacks by (eapply strip_lacks, split_head_lacks, Hsplit).
  rewrite strip_idemp.
  destruct (String.length (strip before) =? 0)%nat; [done|].
  by destruct (split ":" (strip before)) as [|name [|rest [|]]].
Qed.

Lemma parse_line_idempotent_witness :
  ∃ before more,
    split "#" "  FOO : low_mean, high_inst  # note" = before :: more ∧
    _parse_line (strip before) = Ok (Some ("FOO", ["low"; "high"], ["mean"; "inst"])).
Proof.
  apply (parse_line_idempotent "  FOO : low_mean, high_inst  # note").
  reflexivity.
Defined.

(** *** Well-formed lines *)

Lemma sapp_not_nil a b : b ≠ "" → a +:+ b ≠ "".
Proof. destruct a; [done|]. by rewrite ?sapp_cons. Qed.

Lemma strip_pad p w t :
  blank p = true → nospace w = true → w ≠ "" → blank t = true →
  strip (p +:+ w +:+ t) = w.
Proof.
  intros Hp Hw Hne Ht. unfold strip.
  rewrite lstrip_blank_app, lstrip_nospace_app by done.
  by apply rstrip_nospace_blank.
Qed.

Section Entry.
Variable e : entry_text.
Hypothesis He : entry_ok e = true.

Let w : string := freq_tag e +:+ String "_" (op_tag e).

Lemma entry_ok_parts :
  blank (lead e) = true ∧ tag_ok (freq_tag e) = true ∧
  tag_ok (op_tag e) = true ∧ blank (trail e) = true.
Proof. unfold entry_ok in He. rewrite !andb_true_iff in He. tauto. Qed.

Lemma render_entry_eq : render_entry e = lead e +:+ w +:+ trail e.
Proof. unfold render_entry, w. by rewrite !sapp_assoc. Qed.

Lemma entry_nospace : nospace w = true ∧ w ≠ "".
Proof.
  destruct entry_ok_parts as (_ & Hf & Ho & _).
  unfold tag_ok in Hf, Ho. rewrite !andb_true_iff in Hf, Ho.
  split.
  - unfold nospace, w in *. rewrite forallb_app. simpl.
    apply andb_true_iff. tauto.
  - unfold w. by apply sapp_not_nil.
Qed.

Lemma render_entry_lacks c :
  c ∈ ["#"; ":"; ","]%char → lacks c (render_entry e) = true.
Proof.
  intros Hc. destruct entry_ok_parts as (Hl & Hf & Ho & Ht).
  unfold tag_ok in Hf, Ho. rewrite !andb_true_iff in Hf, Ho.
  assert (isspace c = false ∧ Ascii.eqb "_" c = false) as [Hsp Hus].
  { rewrite !elem_of_cons, elem_of_nil in Hc. by destruct Hc as [->|[->|[->|[]]]]. }
  rewrite render_entry_eq. unfold w. rewrite !lacks_app.
  rewrite (blank_lacks c (lead e)), (blank_lacks c (trail e)) by done.
  assert (lacks c (freq_tag e) = true ∧ lacks c (op_tag e) = true) as [-> Hop].
  { rewrite !elem_of_cons, elem_of_nil in Hc.
    destruct Hc as [->|[->|[->|[]]]]; tauto. }
  unfold lacks in *. cbn [forallb]. cbn beta. by rewrite Hus, Hop.
Qed.

Lemma strip_render_entry : strip (render_entry e) = w.
Proof.
  destruct entry_ok_parts as (Hl & _ & _ & Ht), entry_nospace as [Hw Hne].
  rewrite render_entry_eq. by apply strip_pad.
Qed.

Lemma rstrip_render_entry : rstrip (render_entry e) = lead e +:+ w.
Proof.
  destruct entry_ok_parts as (Hl & _ & _ & Ht), entry_nospace as [Hw Hne].
  rewrite render_entry_eq. rewrite rstrip_app; rewrite rstrip_nospace_blank by done; done.
Qed.

Lemma strip_rstrip_render_entry : strip (rstrip (render_entry e)) = w.
Proof.
  destruct entry_ok_parts as (Hl & _ & _ & Ht), entry_nospace as [Hw Hne].
  rewrite rstrip_render_entry. rewrite <- (sapp_nil_r w) at 1.
  by apply strip_pad.
Qed.

Lemma split_entry : split "_" w = [freq_tag e; op_tag e].
Proof.
  destruct entry_ok_parts as (_ & Hf & Ho & _).
  unfold tag_ok in Hf, Ho. rewrite !andb_true_iff in Hf, Ho.
  unfold w. rewrite split_app, split_lacks by tauto. done.
Qed.

Lemma rstrip_render_entry_app s : rstrip (render_entry e +:+ s) ≠ "".
Proof.
  destruct entry_ok_parts as (_ & _ & _ & _).
  rewrite render_entry_eq. unfold w. rewrite !sapp_assoc.
  rewrite <- (sapp_assoc (lead e)). rewrite ?sapp_cons.
  rewrite rstrip_app; rewrite rstrip_cons_nospace by done; [|done].
  by apply sapp_not_nil.
Qed.

End Entry.

Lemma join_cons2 sep x y l : join sep (x :: y :: l) = x +:+ sep +:+ join sep (y :: l).
Proof. done. Qed.

Lemma join_entries_lacks c entries :
  c ∈ ["#"; ":"]%char → Forall (λ e, entry_ok e = true) entries →
  lacks c (join "," (render_entry <$> entries)) = true.
Proof.
  intros Hc. induction 1 as [|e entries He Hall IH]; [done|].
  assert (c ∈ ["#"; ":"; ","]%char) as Hc'.
  { apply elem_of_cons in Hc as [->|Hc]; [by left|].
    apply elem_of_cons in Hc as [->|Hc]; [by right; left|].
    by apply elem_of_nil in Hc. }
  destruct entries as [|e' entries]; [by apply render_entry_lacks|].
  cbn [fmap list_fmap] in *. rewrite join_cons2, !lacks_app, IH.
  rewrite render_entry_lacks by done.
  rewrite !elem_of_cons, elem_of_nil in Hc. by destruct Hc as [->|[->|[]]].
Qed.

Lemma rstrip_join_not_nil e entries :
  entry_ok e = true → rstrip (join "," (render_entry <$> e :: entries)) ≠ "".
Proof.
  intros He. destruct entries as [|e' entries]; cbn [fmap list_fmap].
  - cbn [join]. rewrite <- (sapp_nil_r (render_entry e)). by apply rstrip_render_entry_app.
  - rewrite join_cons2. by apply rstrip_render_entry_app.
Qed.

Lemma parse_entries_join rest entries freq op :
  entries ≠ [] → Forall (λ e, entry_ok e = true) entries →
  parse_entries rest (split "," (rstrip (join "," (render_entry <$> entries)))) freq op
    = Ok (freq ++ (freq_tag <$> entries), op ++ (op_tag <$> entries)).
Proof.
  intros Hne Hall. revert freq op.
  induction Hall as [|e entries He Hall IH]; intros freq op; [done|].
  destruct entries as [|e' entries]; cbn [fmap list_fmap].
  - cbn [join]. rewrite split_lacks
      by (apply rstrip_lacks, render_entry_lacks; [done | by right; right; left]).
    cbn [parse_entries]. rewrite strip_rstrip_render_entry, split_entry by done. done.
  - rewrite join_cons2.
    change ("," +:+ join "," (render_entry e' :: (render_entry <$> entries)))
      with (String "," (join "," (render_entry <$> e' :: entries))).
    rewrite rstrip_app.
    2:{ rewrite rstrip_cons_nospace by done. done. }
    rewrite rstrip_cons_nospace by done.
    rewrite split_app by (apply render_entry_lacks; [done | by right; right; left]).
    cbn [parse_entries]. rewrite strip_render_entry, split_entry by done.
    rewrite IH by done. cbn [fmap list_fmap]. by rewrite <- !app_assoc.
Qed.

(** C8. A line [NAME : FREQ1_OP1, FREQ2_OP2, ...] with any white space
    around the name and around each entry, followed by nothing or by a
    comment, parses to the name, the frequencies in order and the operators
    in order. *)
Theorem parse_line_well_formed (pad0 name pad1 : string) (entries : list entry_text)
    (tail : string) :
  blank pad0 = true → name_ok name = true → blank pad1 = true →
  entries ≠ [] → Forall (λ e, entry_ok e = true) entries →
  comment_ok tail = true →
  _parse_line (render_line pad0 name pad1 entries tail)
    = Ok (Some (name, freq_tag <$> entries, op_tag <$> entries)).
Proof.
  intros Hp0 Hname Hp1 Hne Hall Htail.
  unfold name_ok in Hname. rewrite !andb_true_iff, negb_true_iff in Hname.
  destruct Hname as (((Hnn%String.eqb_neq & Hnsp) & Hnhash) & Hncolon).
  set (J := join "," (render_entry <$> entries)).
  assert (rstrip J ≠ "") as HJ.
  { unfold J. destruct Hall as [|e entries He _]; [done|]. by apply rstrip_join_not_nil. }
  set (before := pad0 +:+ (name +:+ pad1) +:+ String ":" J).
  assert (render_line pad0 name pad1 entries tail = before +:+ tail) as ->.
  { unfold render_line, before. fold J. by rewrite !sapp_assoc. }
  assert (lacks "#" before = true) as Hhash.
  { unfold before. rewrite !lacks_app, (blank_lacks "#" pad0), (blank_lacks "#" pad1), Hnhash
      by done.
    change (lacks "#" (String ":" J)) with (lacks "#" J).
    unfold J. by rewrite join_entries_lacks by (done || by left). }
  assert (∃ more, split "#" (before +:+ tail) = before :: more) as [more Hsplit].
  { destruct tail as [|c tail].
    - rewrite sapp_nil_r, split_lacks by done. eauto.
    - simpl in Htail. apply Ascii.eqb_eq in Htail as ->. rewrite split_app by done. eauto. }
  assert (strip before = (name +:+ pad1) +:+ String ":" (rstrip J)) as Hloc.
  { unfold strip, before. rewrite lstrip_blank_app by done.
    rewrite sapp_assoc, lstrip_nospace_app by done. rewrite <- sapp_assoc.
    rewrite rstrip_app; rewrite rstrip_cons_nospace by done; done. }
  unfold _parse_line. rewrite Hsplit, Hloc.
  assert ((String.length ((name +:+ pad1) +:+ String ":" (rstrip J)) =? 0)%nat = false) as ->.
  { destruct name; [done|]. by rewrite ?sapp_cons. }
  rewrite split_app.
  2:{ by rewrite lacks_app, Hncolon, (blank_lacks ":" pad1) by done. }
  rewrite split_lacks.
  2:{ apply rstrip_lacks. unfold J. by rewrite join_entries_lacks by (done || by right; left). }
  assert (strip (name +:+ pad1) = name) as ->.
  { rewrite <- (sapp_nil_l (name +:+ pad1)). by apply strip_pad. }
  unfold J. by rewrite parse_entries_join by done.
Qed.

Lemma parse_line_well_formed_witness :
  _parse_line "FOO : low_mean, high_inst"
    = Ok (Some ("FOO", ["low"; "high"], ["mean"; "inst"])) ∧
  _parse_line "FOO : low_mean" = Ok (Some ("FOO", ["low"], ["mean"])).
Proof.
  split.
  - apply (parse_line_well_formed "" "FOO" " "
             [mkEntry " " "low" "mean" ""; mkEntry " " "high" "inst" ""] "");
      (reflexivity || discriminate || (repeat constructor)).
  - apply (parse_line_well_formed "" "FOO" " " [mkEntry " " "low" "mean" ""] "");
      (reflexivity || discriminate || (repeat constructor)).
Defined.

(** ** The conversion routine *)

Lemma ensure_default (pv : gmap string (list string)) freq f :
  default [] ((if bool_decide (freq ∈ dom pv) then pv else <[freq := []]> pv) !! f)
    = default [] (pv !! f).
Proof.
  case_bool_decide as Hdom; [done|].
  destruct (decide (freq = f)) as [->|Hne].
  - rewrite lookup_insert_eq. apply not_elem_of_dom in Hdom. by rewrite Hdom.
  - by rewrite lookup_insert_ne.
Qed.

Lemma check_processed_step path v freq frequency (pv : gmap string (list string)) :
  check_processed path v (freq :: frequency) pv =
    if bool_decide (v ∈ default [] (pv !! freq)) then
      Fatal (v +:+ " appears in " +:+ path +:+ " with frequency %" +:+ freq
             +:+ " multiple times") 1
    else
      check_processed path v frequency
        (<[freq := default [] (pv !! freq) ++ [v]]>
           (if bool_decide (freq ∈ dom pv) then pv else <[freq := []]> pv)).
Proof. cbn [check_processed]. by rewrite ensure_default. Qed.

Lemma seen_step (pv : gmap string (list string)) freq v f x :
  seen pv f x →
  seen (<[freq := default [] (pv !! freq) ++ [v]]>
          (if bool_decide (freq ∈ dom pv) then pv else <[freq := []]> pv)) f x.
Proof.
  unfold seen. destruct (decide (freq = f)) as [->|Hne].
  - rewrite lookup_insert_eq. simpl. intros H. apply elem_of_app. by left.
  - rewrite lookup_insert_ne by done. by rewrite ensure_default.
Qed.

Lemma check_processed_mono path v frequency pv pv' f x :
  check_processed path v frequency pv = Ok pv' → seen pv f x → seen pv' f x.
Proof.
  revert pv. induction frequency as [|freq frequency IH]; intros pv.
  { by intros [= ->]. }
  rewrite check_processed_step. case_bool_decide as Hdup; [done|].
  intros Hck Hseen. eapply IH; [exact Hck|]. by apply seen_step.
Qed.

Lemma check_processed_records path v frequency pv pv' f :
  check_processed path v frequency pv = Ok pv' → f ∈ frequency → seen pv' f v.
Proof.
  revert pv. induction frequency as [|freq frequency IH]; intros pv Hck Hin.
  { by apply elem_of_nil in Hin. }
  rewrite check_processed_step in Hck. case_bool_decide as Hdup; [done|].
  apply elem_of_cons in Hin as [->|Hin]; [|by eapply IH].
  eapply check_processed_mono; [exact Hck|].
  unfold seen. rewrite lookup_insert_eq. simpl. apply elem_of_app. right. by left.
Qed.

Lemma check_processed_duplicate path v frequency pv f :
  f ∈ frequency → seen pv f v →
  ∃ msg, check_processed path v frequency pv = Fatal msg 1.
Proof.
  revert pv. induction frequency as [|freq frequency IH]; intros pv Hin Hseen.
  { by apply elem_of_nil in Hin. }
  rewrite check_processed_step. case_bool_decide as Hdup; [eauto|].
  apply elem_of_cons in Hin as [->|Hin]; [done|].
  apply IH; [done|]. by apply seen_step.
Qed.

Lemma check_processed_exit path v frequency pv :
  exits_with_1 (check_processed path v frequency pv).
Proof.
  revert pv. induction frequency as [|freq frequency IH]; intros pv; [done|].
  rewrite check_processed_step. by case_bool_decide.
Qed.

Lemma parse_entries_exit rest entries freq op :
  exits_with_1 (parse_entries rest entries freq op).
Proof.
  revert freq op. induction entries as [|e entries IH]; intros freq op; [done|].
  simpl. by destruct (split "_" (strip e)) as [|f [|o [|]]].
Qed.

Lemma parse_line_exit line_in : exits_with_1 (_parse_line line_in).
Proof.
  unfold _parse_line. destruct (split "#" line_in) as [|before more]; [done|].
  destruct (String.length (strip before) =? 0)%nat; [done|].
  destruct (split ":" (strip before)) as [|name [|rest [|]]]; try done.
  pose proof (parse_entries_exit rest (split "," rest) [] []) as H.
  by destruct (parse_entries rest (split "," rest) [] []) as [[]| |].
Qed.

Lemma append_all_exit keys v self : exits_with_1 (append_all keys v self).
Proof.
  revert self. induction keys as [|k keys IH]; intros self; [done|].
  simpl. unfold append_var, template, deref, first.
  destruct (dict_get k _) as [t|]; [|done]. simpl.
  destruct (heap self !! fields t) as [[|f cell]|]; [done| |done]. simpl.
  destruct (lists f); [done|]. simpl. apply IH.
Qed.

Lemma update_exit self v frequency is2D output_all vg :
  exits_with_1 (update self v frequency is2D output_all vg).
Proof. unfold update. rewrite update_loop_append_all. apply append_all_exit. Qed.

Section ConversionFacts.
Variable ecosys_diagnostics_in : string.
Variable diag2D_list : list string.
Variable vert_grid : string.
Variable lMARBL_output_all lMARBL_output_alt_co2 : bool.

Abbreviation step :=
  (process_line ecosys_diagnostics_in diag2D_list vert_grid lMARBL_output_all
     lMARBL_output_alt_co2).
Abbreviation run :=
  (process_lines ecosys_diagnostics_in diag2D_list vert_grid lMARBL_output_all
     lMARBL_output_alt_co2).

Lemma process_line_exit st line : exits_with_1 (step st line).
Proof.
  destruct st as [pv dt]. unfold process_line.
  pose proof (parse_line_exit (strip line)) as Hp.
  destruct (_parse_line (strip line)) as [[[[v fs] os]|]| |]; simpl; try done.
  destruct (negb lMARBL_output_alt_co2 && contains "ALT_CO2" v); [done|].
  pose proof (check_processed_exit ecosys_diagnostics_in v fs pv) as Hc.
  destruct (check_processed _ _ _ _) as [pv'| |]; simpl; try done.
  pose proof (update_exit dt v fs (bool_decide (v ∈ diag2D_list)) lMARBL_output_all
                vert_grid) as Hu.
  by destruct (update _ _ _ _ _ _).
Qed.

Lemma process_line_mono st line st' f x :
  step st line = Ok st' → seen st.1 f x → seen st'.1 f x.
Proof.
  destruct st as [pv dt]. unfold process_line.
  destruct (_parse_line (strip line)) as [[[[v fs] os]|]| |]; simpl; try done.
  2:{ by intros [= <-]. }
  destruct (negb lMARBL_output_alt_co2 && contains "ALT_CO2" v); [by intros [= <-]|].
  destruct (check_processed _ _ _ _) as [pv'| |] eqn:Hc; simpl; try done.
  destruct (update _ _ _ _ _ _); simpl; try done.
  intros [= <-]. simpl. by eapply check_processed_mono.
Qed.

Lemma process_line_records st line st' v fs os f :
  _parse_line (strip line) = Ok (Some (v, fs, os)) →
  negb lMARBL_output_alt_co2 && contains "ALT_CO2" v = false →
  step st line = Ok st' → f ∈ fs → seen st'.1 f v.
Proof.
  destruct st as [pv dt]. unfold process_line. intros -> Halt. simpl. rewrite Halt.
  destruct (check_processed _ _ _ _) as [pv'| |] eqn:Hc; simpl; try done.
  destruct (update _ _ _ _ _ _); simpl; try done.
  intros [= <-]. simpl. by eapply check_processed_records.
Qed.

Lemma process_line_duplicate st line v fs os f :
  _parse_line (strip line) = Ok (Some (v, fs, os)) →
  negb lMARBL_output_alt_co2 && contains "ALT_CO2" v = false →
  f ∈ fs → seen st.1 f v →
  ∃ msg, step st line = Fatal msg 1.
Proof.
  destruct st as [pv dt]. unfold process_line. intros -> Halt Hin Hseen.
  simpl. rewrite Halt.
  destruct (check_processed_duplicate ecosys_diagnostics_in v fs pv f Hin Hseen)
    as [msg ->].
  eauto.
Qed.

Lemma process_lines_app st lines1 lines2 :
  run st (lines1 ++ lines2) =
    (st' ← run st lines1; run st' lines2).
Proof.
  revert st. induction lines1 as [|line lines1 IH]; intros st; [done|].
  simpl. destruct (step st line); simpl; [apply IH | done..].
Qed.

Lemma process_lines_mono st all_lines st' f x :
  run st all_lines = Ok st' → seen st.1 f x → seen st'.1 f x.
Proof.
  revert st. induction all_lines as [|line all_lines IH]; intros st.
  { by intros [= <-]. }
  simpl. destruct (step st line) as [st1| |] eqn:Hl; simpl; try done.
  intros Hrest Hseen. eapply IH; [exact Hrest|]. by eapply process_line_mono.
Qed.

Lemma process_lines_exit st all_lines : exits_with_1 (run st all_lines).
Proof.
  revert st. induction all_lines as [|line all_lines IH]; intros st; [done|].
  simpl. pose proof (process_line_exit st line) as Hl.
  destruct (step st line); simpl; [apply IH | done..].
Qed.

(** Two declarations of one name at one frequency, neither skipped as
    ALT_CO2: the loop cannot get past the second. *)
Lemma process_lines_duplicate st lines1 line1 lines2 line2 lines3 v f1 o1 f2 o2 freq :
  _parse_line (strip line1) = Ok (Some (v, f1, o1)) →
  _parse_line (strip line2) = Ok (Some (v, f2, o2)) →
  freq ∈ f1 → freq ∈ f2 →
  negb lMARBL_output_alt_co2 && contains "ALT_CO2" v = false →
  (∀ st', run st (lines1 ++ line1 :: lines2) = Ok st' →
     seen st'.1 freq v ∧ ∃ msg, step st' line2 = Fatal msg 1) ∧
  terminated (run st (lines1 ++ line1 :: lines2 ++ line2 :: lines3)).
Proof.
  intros Hp1 Hp2 Hin1 Hin2 Halt.
  assert (∀ st', run st (lines1 ++ line1 :: lines2) = Ok st' →
                 seen st'.1 freq v) as Hseen.
  { intros st'. rewrite process_lines_app.
    destruct (run st lines1) as [sta| |]; simpl; try done.
    destruct (step sta line1) as [stb| |] eqn:Hb; simpl; try done.
    intros Hrest. eapply process_lines_mono; [exact Hrest|].
    exact (process_line_records sta line1 stb v f1 o1 freq Hp1 Halt Hb Hin1). }
  split.
  - intros st' Hst'. split; [by apply Hseen|].
    exact (process_line_duplicate st' line2 v f2 o2 freq Hp2 Halt Hin2 (Hseen _ Hst')).
  - replace (lines1 ++ line1 :: lines2 ++ line2 :: lines3)
      with ((lines1 ++ line1 :: lines2) ++ line2 :: lines3)
      by (by rewrite <- app_assoc).
    rewrite process_lines_app.
    destruct (run st (lines1 ++ line1 :: lines2)) as [st'| |] eqn:Hst'; simpl;
      try done.
    destruct (process_line_duplicate st' line2 v f2 o2 freq Hp2 Halt Hin2 (Hseen _ eq_refl))
      as [msg Hmsg].
    by rewrite Hmsg.
Qed.

End ConversionFacts.

Lemma terminated_exit_status {A} (r : result A) :
  terminated r → exits_with_1 r → exit_status r = Some 1.
Proof. destruct r; simpl; [done| |done]. by intros _ ->. Qed.

(** C5, as the code has it.  When a name that is not skipped as ALT_CO2
    is declared twice at one frequency, the run ends with exit status 1 and
    writes nothing; if the loop gets to the second declaration, the name is
    in the mapping at that frequency and the line is where the run logs the
    error and exits. *)
Theorem duplicate_frequency_fatal (files : string → option (list string))
    (path diag_table_out : string) (diag2D_list : list string) (vert_grid : string)
    (lMARBL_output_all lMARBL_output_alt_co2 : bool)
    (lines1 : list string) (line1 : string) (lines2 : list string) (line2 : string)
    (lines3 : list string) (varname : string) (f1 o1 f2 o2 : list string) (freq : string) :
  files path = Some (lines1 ++ line1 :: lines2 ++ line2 :: lines3) →
  _parse_line (strip line1) = Ok (Some (varname, f1, o1)) →
  _parse_line (strip line2) = Ok (Some (varname, f2, o2)) →
  freq ∈ f1 → freq ∈ f2 →
  negb lMARBL_output_alt_co2 && contains "ALT_CO2" varname = false →
  exit_status
    (diagnostics_to_diag_table files (Some path) diag_table_out diag2D_list vert_grid
       lMARBL_output_all lMARBL_output_alt_co2) = Some 1 ∧
  ∀ st,
    process_lines path diag2D_list vert_grid lMARBL_output_all lMARBL_output_alt_co2
      (∅, __init__ vert_grid) (lines1 ++ line1 :: lines2) = Ok st →
    seen st.1 freq varname ∧
    ∃ msg, process_line path diag2D_list vert_grid lMARBL_output_all
             lMARBL_output_alt_co2 st line2 = Fatal msg 1.
Proof.
  intros Hfile Hp1 Hp2 Hin1 Hin2 Halt.
  destruct (process_lines_duplicate path diag2D_list vert_grid lMARBL_output_all
              lMARBL_output_alt_co2 (∅, __init__ vert_grid) lines1 line1 lines2 line2 lines3
              varname f1 o1 f2 o2 freq Hp1 Hp2 Hin1 Hin2 Halt) as [Hsecond Hterm].
  split; [|exact Hsecond].
  unfold diagnostics_to_diag_table. rewrite Hfile. cbv zeta.
  pose proof (process_lines_exit path diag2D_list vert_grid lMARBL_output_all
                lMARBL_output_alt_co2 (∅, __init__ vert_grid)
                (lines1 ++ line1 :: lines2 ++ line2 :: lines3)) as Hexit.
  revert Hterm Hexit.
  generalize (process_lines path diag2D_list vert_grid lMARBL_output_all
                lMARBL_output_alt_co2 (∅, __init__ vert_grid)
                (lines1 ++ line1 :: lines2 ++ line2 :: lines3)).
  intros [st|msg code|e] Hterm Hexit;
    [done | simpl in Hexit; subst code; reflexivity | reflexivity].
Qed.

Lemma duplicate_frequency_fatal_witness :
  exit_status
    (diagnostics_to_diag_table (λ _, Some ["BAR : low_mean"; "# again"; "BAR : low_mean"])
       (Some "ecosys_diagnostics") "diag_table" [] "native" false false) = Some 1.
Proof.
  refine (proj1 (duplicate_frequency_fatal
                   (λ _, Some ["BAR : low_mean"; "# again"; "BAR : low_mean"])
                   "ecosys_diagnostics" "diag_table" [] "native" false false
                   [] "BAR : low_mean" ["# again"] "BAR : low_mean" []
                   "BAR" ["low"] ["mean"] ["low"] ["mean"] "low" _ _ _ _ _ _));
    try reflexivity; by left.
Defined.

(** C5 as stated fails: with ALT_CO2 diagnostics left out, a name holding
    "ALT_CO2" declared twice at "low" is skipped twice and the run returns. *)
Lemma duplicate_alt_co2_not_fatal :
  _parse_line "FOO_ALT_CO2 : low_mean" = Ok (Some ("FOO_ALT_CO2", ["low"], ["mean"])) ∧
  diagnostics_to_diag_table
    (λ _, Some ["FOO_ALT_CO2 : low_mean"; "FOO_ALT_CO2 : low_mean"])
    (Some "ecosys_diagnostics") "diag_table" [] "native" false false
  = Ok (Printed "WARNING: no JSON file written as no variables were requested") ∧
  exit_status
    (diagnostics_to_diag_table
       (λ _, Some ["FOO_ALT_CO2 : low_mean"; "FOO_ALT_CO2 : low_mean"])
       (Some "ecosys_diagnostics") "diag_table" [] "native" false false) = None.
Proof. split_and!; by vm_compute. Qed.

(** C10. The parser accepts a frequency outside low, medium, high and
    never; [update] then indexes the registry with a key it does not have,
    and the run ends with an uncaught [KeyError] instead of a logged error
    and [sys.exit]. *)
Theorem unknown_frequency_KeyError :
  ∃ line varname freq op,
    _parse_line line = Ok (Some (varname, [freq], [op])) ∧
    (freq ∉ ["low"; "medium"; "high"; "never"]) ∧
    update (__init__ "native") varname [freq] false false "native"
      = Uncaught (KeyError (freq +:+ "_native_z")) ∧
    update (__init__ "both") varname [freq] true false "both"
      = Uncaught (KeyError freq) ∧
    diagnostics_to_diag_table (λ _, Some [line]) (Some "ecosys_diagnostics")
      "diag_table" [] "native" false false
      = Uncaught (KeyError (freq +:+ "_native_z")).
Proof.
  exists "FOO : weekly_mean", "FOO", "weekly", "mean".
  split_and!; try (by vm_compute).
  apply (bool_decide_unpack _). by vm_compute.
Qed.

(** * Further properties *)

(** ** The line parser, line by line *)

Lemma lstrip_blank p : blank p = true → lstrip p = "".
Proof. intros Hp. rewrite <- (sapp_nil_r p). by rewrite lstrip_blank_app. Qed.

Lemma lstrip_nil_blank s : lstrip s = "" → blank s = true.
Proof.
  unfold blank. induction s as [|x s IH]; simpl; [done|].
  destruct (isspace x); [done|]. discriminate.
Qed.

Lemma strip_nil_iff s : strip s = "" ↔ blank s = true.
Proof.
  split.
  - unfold strip. intros H. apply lstrip_nil_blank.
    pose proof (lstrip_ltrimmed s) as Ht.
    destruct (lstrip s) as [|x t]; [done|]. simpl in Ht.
    by rewrite rstrip_cons_nospace in H.
  - intros Hb. unfold strip. by rewrite lstrip_blank.
Qed.

Lemma length_zero_iff s : (String.length s =? 0)%nat = true ↔ s = "".
Proof. by destruct s. Qed.

Lemma split_parts_lacks c s : Forall (λ p, lacks c p = true) (split c s).
Proof.
  induction s as [|x s IH]; simpl; [by repeat constructor|].
  destruct (Ascii.eqb x c) eqn:Hx; [by constructor|].
  destruct (split c s) as [|p ps] eqn:E; [by apply split_not_nil in E|].
  apply Forall_cons in IH as [Hp Hps]. constructor; [|done].
  unfold lacks in *. simpl. by rewrite Hx, Hp.
Qed.

Lemma split_parts_keep c' c s :
  lacks c' s = true → Forall (λ p, lacks c' p = true) (split c s).
Proof.
  unfold lacks. induction s as [|x s IH]; simpl; [by repeat constructor|].
  intros [Hx Hs]%andb_true_iff. specialize (IH Hs).
  destruct (Ascii.eqb x c); [by constructor|].
  destruct (split c s) as [|p ps]; [by repeat constructor; simpl; rewrite Hx|].
  apply Forall_cons in IH as [Hp Hps]. constructor; [|done].
  simpl. by rewrite Hx, Hp.
Qed.

(** The loop over the entries, as a whole: it returns exactly when every
    entry splits in two on '_', with the first halves and the second halves
    in order. *)
Lemma parse_entries_Ok rest entries freq op (pairs : list (string * string)) :
  Forall2 (λ e p, split "_" (strip e) = [p.1; p.2]) entries pairs →
  parse_entries rest entries freq op = Ok (freq ++ pairs.*1, op ++ pairs.*2).
Proof.
  intros Hall. revert freq op.
  induction Hall as [|e [f o] entries pairs He _ IH]; intros freq op; simpl.
  - by rewrite !app_nil_r.
  - simpl in He. rewrite He, IH. by rewrite <- !app_assoc.
Qed.

Lemma parse_entries_Ok_inv rest entries freq op fs os :
  parse_entries rest entries freq op = Ok (fs, os) →
  ∃ pairs : list (string * string),
    Forall2 (λ e p, split "_" (strip e) = [p.1; p.2]) entries pairs ∧
    fs = freq ++ pairs.*1 ∧ os = op ++ pairs.*2.
Proof.
  revert freq op. induction entries as [|e entries IH]; intros freq op; simpl.
  - intros [= <- <-]. exists []. by rewrite !app_nil_r.
  - destruct (split "_" (strip e)) as [|f [|o [|]]] eqn:He; try done.
    intros (pairs & Hall & -> & ->)%IH. exists ((f, o) :: pairs).
    split_and!; [by constructor | by rewrite <- app_assoc..].
Qed.

(** X1. The parser returns the null triple exactly on the lines that hold
    nothing but white space before their first '#'. *)
Theorem parse_line_null_iff (line_in : string) :
  _parse_line line_in = Ok None ↔
  ∃ before more, split "#" line_in = before :: more ∧ blank before = true.
Proof.
  unfold _parse_line.
  destruct (split "#" line_in) as [|before more] eqn:Hsplit.
  { by apply split_not_nil in Hsplit. }
  destruct (String.length (strip before) =? 0)%nat eqn:Hlen.
  - apply length_zero_iff, strip_nil_iff in Hlen. split; [eauto|done].
  - split.
    + intros H. exfalso.
      destruct (split ":" (strip before)) as [|name [|rest [|]]]; try done.
      by destruct (parse_entries rest (split "," rest) [] []) as [[]| |].
    + intros (b & m & [= <- <-] & Hb). apply strip_nil_iff in Hb.
      rewrite Hb in Hlen. done.
Qed.

Lemma parse_line_null_iff_witness :
  _parse_line "   # FOO : low_mean" = Ok None.
Proof.
  apply (proj2 (parse_line_null_iff "   # FOO : low_mean")).
  exists "   ", [" FOO : low_mean"]. split; reflexivity.
Defined.

(** X2. Whatever the parser returns as a declaration has as many operators
    as frequencies, at least one of each, none of them holding '_', ',',
    ':' or '#', and a name without white space at either end, without ':'
    and without '#'. *)
Theorem parse_line_result_shape (line_in varname : string) (freq op : list string) :
  _parse_line line_in = Ok (Some (varname, freq, op)) →
  length freq = length op ∧ freq ≠ [] ∧
  Forall (λ s, lacks "_" s = true ∧ lacks "," s = true ∧
               lacks ":" s = true ∧ lacks "#" s = true) (freq ++ op) ∧
  strip varname = varname ∧ lacks ":" varname = true ∧ lacks "#" varname = true.
Proof.
  unfold _parse_line.
  destruct (split "#" line_in) as [|before more] eqn:Hsplit; [done|].
  destruct (String.length (strip before) =? 0)%nat; [done|].
  pose proof (strip_lacks "#" before (split_head_lacks _ _ _ _ Hsplit)) as Hhash.
  pose proof (split_parts_lacks ":" (strip before)) as Hcolon.
  pose proof (split_parts_keep "#" ":" (strip before) Hhash) as Hhash'.
  destruct (split ":" (strip before)) as [|name [|rest [|]]]; try done.
  apply Forall_cons in Hcolon as [Hn1 [Hr1 _]%Forall_cons].
  apply Forall_cons in Hhash' as [Hn2 [Hr2 _]%Forall_cons].
  destruct (parse_entries rest (split "," rest) [] []) as [[fs os]| |] eqn:Hp; try done.
  simpl. intros [= <- <- <-].
  apply parse_entries_Ok_inv in Hp as (pairs & Hall & -> & ->). simpl.
  assert (Forall (λ e, lacks "," e = true ∧ lacks ":" e = true ∧ lacks "#" e = true)
            (split "," rest)) as Hentries.
  { pose proof (split_parts_lacks "," rest) as H1.
    pose proof (split_parts_keep ":" "," rest Hr1) as H2.
    pose proof (split_parts_keep "#" "," rest Hr2) as H3.
    rewrite Forall_forall in H1, H2, H3. apply Forall_forall. intros e He. auto. }
  assert (Forall (λ p : string * string,
            ∀ s, s ∈ [p.1; p.2] →
              lacks "_" s = true ∧ lacks "," s = true ∧
              lacks ":" s = true ∧ lacks "#" s = true) pairs) as Hpairs.
  { clear -Hall Hentries. induction Hall as [|e p entries pairs He _ IH]; [constructor|].
    apply Forall_cons in Hentries as [(H1 & H2 & H3) Hentries].
    constructor; [|by apply IH]. rewrite <- He. intros s Hs.
    pose proof (split_parts_lacks "_" (strip e)) as Hu.
    pose proof (split_parts_keep "," "_" (strip e) (strip_lacks _ _ H1)) as Hc.
    pose proof (split_parts_keep ":" "_" (strip e) (strip_lacks _ _ H2)) as Hd.
    pose proof (split_parts_keep "#" "_" (strip e) (strip_lacks _ _ H3)) as Hh.
    rewrite Forall_forall in Hu, Hc, Hd, Hh. auto. }
  split_and!.
  - by rewrite !length_fmap.
  - intros Hnil%fmap_nil_inv. subst pairs. apply Forall2_length in Hall.
    destruct (split "," rest) eqn:E; [by apply split_not_nil in E|done].
  - apply Forall_app. split; apply Forall_fmap; (eapply Forall_impl; [exact Hpairs|]);
      intros p Hp; simpl; apply Hp; [by left | by right; left].
  - apply strip_idemp.
  - by apply strip_lacks.
  - by apply strip_lacks.
Qed.

Lemma parse_line_result_shape_witness :
  length ["low"; "high"] = length ["mean"; "inst"] ∧ ["low"; "high"] ≠ [] ∧
  Forall (λ s, lacks "_" s = true ∧ lacks "," s = true ∧
               lacks ":" s = true ∧ lacks "#" s = true)
    (["low"; "high"] ++ ["mean"; "inst"]) ∧
  strip "FOO" = "FOO" ∧ lacks ":" "FOO" = true ∧ lacks "#" "FOO" = true.
Proof.
  apply (parse_line_result_shape "FOO : low_mean, high_inst # c" "FOO").
  reflexivity.
Defined.

(** X3. A line that is not blank before its comment, splits in two on ':'
    and whose entries between commas each split in two on '_' is accepted:
    the parser returns the stripped name, the first halves and the second
    halves, in order. *)
Theorem parse_line_accepts (line_in before : string) (more : list string)
    (name rest : string) (pairs : list (string * string)) :
  split "#" line_in = before :: more →
  strip before ≠ "" →
  split ":" (strip before) = [name; rest] →
  Forall2 (λ e p, split "_" (strip e) = [p.1; p.2]) (split "," rest) pairs →
  _parse_line line_in = Ok (Some (strip name, pairs.*1, pairs.*2)).
Proof.
  intros Hsplit Hne Hcolon Hall. unfold _parse_line. rewrite Hsplit.
  destruct (String.length (strip before) =? 0)%nat eqn:Hlen.
  { by apply length_zero_iff in Hlen. }
  rewrite Hcolon. by rewrite (parse_entries_Ok _ _ _ _ pairs Hall).
Qed.

Lemma parse_line_accepts_witness :
  _parse_line "photoC_TOT : medium_mean,low_mean # total"
    = Ok (Some ("photoC_TOT", ["medium"; "low"], ["mean"; "mean"])).
Proof.
  apply (parse_line_accepts "photoC_TOT : medium_mean,low_mean # total"
           "photoC_TOT : medium_mean,low_mean " [" total"]
           "photoC_TOT " " medium_mean,low_mean"
           [("medium", "mean"); ("low", "mean")]).
  - reflexivity.
  - vm_compute. discriminate.
  - reflexivity.
  - repeat constructor.
Defined.

(** ** [update], whatever the arguments *)

Lemma placements_app is2D vg fs1 fs2 :
  placements is2D vg (fs1 ++ fs2) = placements is2D vg fs1 ++ placements is2D vg fs2.
Proof.
  induction fs1 as [|f fs1 IH]; [done|]. simpl. by rewrite IH, app_assoc.
Qed.

Lemma placements_drop_never is2D vg frequency :
  placements is2D vg (filter (λ freq, freq ≠ "never") frequency)
    = placements is2D vg frequency.
Proof.
  induction frequency as [|f frequency IH]; [done|].
  rewrite filter_cons. simpl. destruct (String.eqb_spec f "never") as [->|Hne].
  - by rewrite decide_False by (by intros []).
  - rewrite decide_True by done. simpl.
    destruct (String.eqb_spec f "never"); [done|]. by rewrite IH.
Qed.

(** X4. Frequencies "never" count for nothing: [update] does the same with
    them taken out of the list. *)
Theorem update_never_ignored (self : obj) (varname : string) (frequency : list string)
    (is2D lMARBL_output_all : bool) (vert_grid : string) :
  update self varname (filter (λ freq, freq ≠ "never") frequency) is2D
    lMARBL_output_all vert_grid
  = update self varname frequency is2D lMARBL_output_all vert_grid.
Proof.
  unfold update. destruct lMARBL_output_all; [done|]. simpl.
  by rewrite !update_loop_append_all, placements_drop_never.
Qed.

(** X5. Without [lMARBL_output_all], one call with the frequencies
    [f1 ++ f2] is a call with [f1] followed by a call with [f2]; if the
    first fails, so does the whole. *)
Theorem update_app (self : obj) (varname : string) (f1 f2 : list string)
    (is2D : bool) (vert_grid : string) :
  update self varname (f1 ++ f2) is2D false vert_grid
  = (self1 ← update self varname f1 is2D false vert_grid;
     update self1 varname f2 is2D false vert_grid).
Proof.
  unfold update. simpl.
  rewrite update_loop_append_all, placements_app, append_all_app.
  rewrite update_loop_append_all.
  destruct (append_all (placements is2D vert_grid f1) varname self); simpl; [|done..].
  by rewrite update_loop_append_all.
Qed.

(** X6. A 3D variable with a vertical grid that is none of "interpolated",
    "native" and "both" goes nowhere: [update] returns the store as it
    was, on any store and for any frequencies, known or not. *)
Theorem update_3D_unknown_grid (self : obj) (varname : string) (frequency : list string)
    (lMARBL_output_all : bool) (vert_grid : string) :
  vert_grid ∉ ["interpolated"; "native"; "both"] →
  update self varname frequency false lMARBL_output_all vert_grid = Ok self.
Proof.
  intros Hvg. unfold update. rewrite update_loop_append_all.
  assert (∀ fs, placements false vert_grid fs = []) as ->; [|done].
  induction fs as [|f fs IH]; [done|]. simpl. rewrite IH, app_nil_r.
  unfold targets.
  rewrite !bool_decide_eq_false_2; [by destruct (String.eqb f "never")|..];
    intros Hin; apply Hvg; set_solver.
Qed.

Lemma update_3D_unknown_grid_witness :
  update (__init__ "both") "FOO" ["low"; "weekly"] false false "z*"
    = Ok (__init__ "both").
Proof.
  apply update_3D_unknown_grid. apply (bool_decide_unpack _). by vm_compute.
Defined.

(** The keys a call indexes, written with the frequency tags. *)
Lemma placements_present is2D vg frequency (keys : list string) :
  Forall (λ k, k ∈ keys) (placements is2D vg frequency) ↔
  ∀ freq, freq ∈ frequency → freq ≠ "never" →
    if is2D then freq ∈ keys
    else (vg ∈ ["interpolated"; "both"] → freq +:+ "_z" ∈ keys) ∧
         (vg ∈ ["native"; "both"] → freq +:+ "_native_z" ∈ keys).
Proof.
  induction frequency as [|f frequency IH]; simpl.
  { split; [intros _ freq Hin; by apply elem_of_nil in Hin | constructor]. }
  rewrite Forall_app, IH. clear IH.
  assert (Forall (λ k, k ∈ keys)
            (if String.eqb f "never" then [] else targets is2D vg f) ↔
          (f ≠ "never" →
           if is2D then f ∈ keys
           else (vg ∈ ["interpolated"; "both"] → f +:+ "_z" ∈ keys) ∧
                (vg ∈ ["native"; "both"] → f +:+ "_native_z" ∈ keys))) as ->.
  { destruct (String.eqb_spec f "never") as [->|Hne].
    - split; [done | constructor].
    - unfold targets. destruct is2D.
      + rewrite Forall_singleton. naive_solver.
      + do 2 case_bool_decide; simpl;
          rewrite ?Forall_cons, ?Forall_nil; naive_solver. }
  split.
  - intros [Hf Hrest] freq [->|Hin]%elem_of_cons Hne; [by apply Hf | by apply Hrest].
  - intros Hall. split.
    + intros Hne. apply Hall; [by left | done].
    + intros freq Hin Hne. apply Hall; [by right | done].
Qed.

(** X7. On a reachable store [update] returns exactly when every key it
    has to index is in the registry: for each frequency other than "never",
    the base key for a 2D variable, the "_z" and "_native_z" keys the
    vertical grid selects for a 3D one.  Otherwise it ends with an uncaught
    [KeyError] for a key the registry does not have; it never logs and
    exits, and never fails on an index. *)
Theorem update_returns_iff (vert_grid : string) (after_dump : bool) (self : obj)
    (varname : string) (frequency : list string) (is2D : bool) (vg : string) :
  reachable vert_grid after_dump self →
  let keys := dict_keys (_diag_table_dict self) in
  ((∃ self', update self varname frequency is2D false vg = Ok self') ↔
   ∀ freq, freq ∈ frequency → freq ≠ "never" →
     if is2D then freq ∈ keys
     else (vg ∈ ["interpolated"; "both"] → freq +:+ "_z" ∈ keys) ∧
          (vg ∈ ["native"; "both"] → freq +:+ "_native_z" ∈ keys)) ∧
  ((∃ self', update self varname frequency is2D false vg = Ok self') ∨
   (∃ key, (key ∉ keys) ∧
           update self varname frequency is2D false vg = Uncaught (KeyError key))).
Proof.
  intros (Hwf & _ & _)%reachable_inv keys.
  rewrite <- placements_present.
  assert (Forall (λ k, k ∈ keys) (placements is2D vg frequency) ↔
          Forall (λ k, is_Some (dict_get k (_diag_table_dict self)))
            (placements is2D vg frequency)) as Hiff.
  { apply Forall_iff. intros k. by rewrite dict_get_is_Some. }
  rewrite Hiff. unfold update. simpl. rewrite update_loop_append_all.
  destruct (decide (Forall (λ k, is_Some (dict_get k (_diag_table_dict self)))
                      (placements is2D vg frequency))) as [Hall|Hno].
  - rewrite append_all_present by done. split; [split; eauto | left; eauto].
  - destruct (append_all_missing _ varname self Hwf Hno) as (k & _ & Hk & ->).
    split; [split; [by intros [? ?] | done]|].
    right. exists k. split; [|done]. by apply dict_get_None.
Qed.

Lemma update_returns_iff_witness :
  (∃ self', update (__init__ "native") "FOO" ["low"; "never"] false false "native"
            = Ok self') ∧
  ¬ (∃ self', update (__init__ "native") "FOO" ["low"] false false "both" = Ok self').
Proof.
  pose proof (update_returns_iff "native" false (__init__ "native") "FOO"
                ["low"; "never"] false "native" (reach_init _)) as [[_ H1] _].
  pose proof (update_returns_iff "native" false (__init__ "native") "FOO"
                ["low"] false "both" (reach_init _)) as [[H2 _] _].
  split.
  - apply H1. intros freq Hin Hne.
    apply elem_of_cons in Hin as [->|Hin].
    + split; intros Hvg;
        [exfalso; apply (bool_decide_pack _) in Hvg; by vm_compute in Hvg
        |apply (bool_decide_unpack _); by vm_compute].
    + apply elem_of_cons in Hin as [->|Hin]; [done|]. by apply elem_of_nil in Hin.
  - intros Hex. specialize (H2 Hex "low"). simpl in H2.
    destruct H2 as [Hz _]; [by left | done |].
    assert ("low_z" ∉ dict_keys (_diag_table_dict (__init__ "native"))) as Hno
      by (apply (bool_decide_unpack _); by vm_compute).
    apply Hno, Hz. apply (bool_decide_unpack _). by vm_compute.
Defined.

(** X8. A call of [update] that returns has only appended copies of the
    variable name at the end of variable lists: nothing is removed or
    reordered, and nothing else of any template changes. *)
Theorem update_only_appends (vert_grid : string) (after_dump : bool) (self self' : obj)
    (varname : string) (frequency : list string) (is2D lMARBL_output_all : bool)
    (vg : string) :
  reachable vert_grid after_dump self →
  update self varname frequency is2D lMARBL_output_all vg = Ok self' →
  _diag_table_dict self' = _diag_table_dict self ∧
  ∀ key,
    frame_of key self' = frame_of key self ∧
    ∃ n, variables key self' = (λ l, l ++ replicate n varname) <$> variables key self.
Proof.
  intros (Hwf & _ & _)%reachable_inv Hup.
  destruct (update_Ok_inv _ _ _ _ _ _ _ Hwf Hup) as [keys ->].
  split; [apply modify_all_dict|]. intros key.
  assert (field_of key (modify_all keys (push varname) self)
          = pushes (replicate (count key keys) varname) <$> field_of key self) as Hf.
  { rewrite field_of_modify_all by (done || apply push_keeps_lists).
    destruct (field_of key self); simpl; [|done]. by rewrite iter_push. }
  split; [by eapply frame_of_pushes|].
  exists (count key keys). unfold variables. rewrite Hf.
  by destruct (field_of key self) as [[m p [|l ls]]|].
Qed.

Lemma update_only_appends_witness :
  ∃ self',
    update (__init__ "both") "FOO" ["low"; "high"] true false "both" = Ok self' ∧
    _diag_table_dict self' = _diag_table_dict (__init__ "both").
Proof.
  destruct (update (__init__ "both") "FOO" ["low"; "high"] true false "both")
    as [self'| |] eqn:Hup; [|vm_compute in Hup; discriminate..].
  exists self'. split; [done|].
  apply (update_only_appends "both" false (__init__ "both") self' "FOO" ["low"; "high"]
           true false "both" (reach_init _) Hup).
Defined.

(** ** The registry from construction on *)

Ltac grid_cases :=
  unfold tier_keys, __init__;
  destruct (bool_decide (_ ∈ ["interpolated"; "both"])),
           (bool_decide (_ ∈ ["native"; "both"])).

Lemma init_keys vert_grid :
  dict_keys (_diag_table_dict (__init__ vert_grid)) = tier_keys vert_grid.
Proof. grid_cases; reflexivity. Qed.

Lemma init_field vert_grid key :
  key ∈ tier_keys vert_grid →
  field_of key (__init__ vert_grid)
    = Some (mkField (if bool_decide (key ∈ ["medium_z"; "high_z"; "low_z"])
                     then "ocean_model_z" else "ocean_model") 1 [[]]).
Proof.
  grid_cases; cbn; intros Hkey;
    repeat (apply elem_of_cons in Hkey as [->|Hkey]; [reflexivity|]);
    by apply elem_of_nil in Hkey.
Qed.

(** X9. Whatever the vertical grid, construction gives the tiers medium,
    high and low, in that order, each followed by its "_z" variant when the
    grid is "interpolated" or "both" and by its "_native_z" variant when it
    is "native" or "both"; every variable list is empty, and the module is
    "ocean_model_z" for the "_z" variants and "ocean_model" for all
    others. *)
Theorem init_tiers (vert_grid : string) :
  dict_keys (_diag_table_dict (__init__ vert_grid))
    = (tier ← ["medium"; "high"; "low"];
       [tier]
       ++ (if bool_decide (vert_grid ∈ ["interpolated"; "both"])
           then [tier +:+ "_z"] else [])
       ++ (if bool_decide (vert_grid ∈ ["native"; "both"])
           then [tier +:+ "_native_z"] else [])) ∧
  ∀ key, key ∈ dict_keys (_diag_table_dict (__init__ vert_grid)) →
    field_of key (__init__ vert_grid)
      = Some (mkField (if bool_decide (key ∈ ["medium_z"; "high_z"; "low_z"])
                       then "ocean_model_z" else "ocean_model") 1 [[]]).
Proof.
  split; [apply init_keys|]. intros key. rewrite init_keys. apply init_field.
Qed.

(** What the operations leave alone in a list object. *)
Lemma reachable_field vert_grid after_dump self key :
  reachable vert_grid after_dump self →
  (λ f, (module f, packing f)) <$> field_of key self
    = (λ f, (module f, packing f)) <$> field_of key (__init__ vert_grid).
Proof.
  induction 1 as [|b self self' v frequency is2D output_all vg Hr IH Hup
                  |b self self' filename eff Hr IH Hdump]; [done| |].
  - apply reachable_inv in Hr as (Hwf & _ & _).
    destruct (update_Ok_inv _ _ _ _ _ _ _ Hwf Hup) as [keys ->].
    rewrite field_of_modify_all by (done || apply push_keeps_lists).
    rewrite <- IH. destruct (field_of key self); simpl; [|done].
    by rewrite iter_push.
  - apply reachable_inv in Hr as (Hwf & _ & _).
    destruct (dump_to_json_spec self filename Hwf) as (eff' & Heq & _).
    rewrite Heq in Hdump. simplify_eq.
    rewrite field_of_dump_all by (done || apply Hwf).
    rewrite <- IH. destruct (_ && _); [|done].
    destruct (field_of key self) as [f|]; simpl; [|done].
    unfold dumped. by destruct (wants_transports key f).
Qed.

Lemma reachable_keys vert_grid after_dump self :
  reachable vert_grid after_dump self →
  dict_keys (_diag_table_dict self) = tier_keys vert_grid.
Proof. intros (_ & -> & _)%reachable_inv. apply init_keys. Qed.

Lemma reachable_module vert_grid after_dump self key f :
  reachable vert_grid after_dump self → field_of key self = Some f →
  key ∈ tier_keys vert_grid ∧
  module f = (if bool_decide (key ∈ ["medium_z"; "high_z"; "low_z"])
              then "ocean_model_z" else "ocean_model") ∧
  packing f = 1.
Proof.
  intros Hr Hf.
  assert (key ∈ tier_keys vert_grid) as Hkey.
  { rewrite <- (reachable_keys _ _ _ Hr). unfold dict_keys.
    apply dict_get_is_Some. unfold field_of in Hf.
    destruct (dict_get key _); [eauto | done]. }
  split; [done|].
  pose proof (reachable_field _ _ _ key Hr) as Heq.
  rewrite Hf, (init_field _ _ Hkey) in Heq. simpl in Heq. by simplify_eq.
Qed.

(** X10. No sequence of updates and dumps changes the templates' own
    entries (suffix, frequencies, units, ...), the set and order of the
    tiers, or the module and packing of a tier: they are as construction
    left them, and every tier keeps a variable list. *)
Theorem reachable_templates_fixed (vert_grid : string) (after_dump : bool) (self : obj) :
  reachable vert_grid after_dump self →
  _diag_table_dict self = _diag_table_dict (__init__ vert_grid) ∧
  ∀ key,
    (λ f, (module f, packing f)) <$> field_of key self
      = (λ f, (module f, packing f)) <$> field_of key (__init__ vert_grid) ∧
    (is_Some (variables key self) ↔ key ∈ dict_keys (_diag_table_dict self)).
Proof.
  intros Hr. pose proof (reachable_inv _ _ _ Hr) as (Hwf & Hd & _).
  split; [done|]. intros key. split; [by eapply reachable_field|].
  split.
  - intros [l Hl]. apply dict_get_is_Some. unfold variables, field_of in Hl.
    destruct (dict_get key _); [eauto | done].
  - intros Hkey. apply wf_variables; [done|]. by apply dict_get_is_Some.
Qed.

Lemma reachable_templates_fixed_witness :
  ∃ self1 self2 eff,
    update (__init__ "both") "FOO" ["low"] false false "both" = Ok self1 ∧
    dump_to_json self1 "diag_table" = Ok (self2, eff) ∧
    _diag_table_dict self2 = _diag_table_dict (__init__ "both").
Proof.
  destruct (update (__init__ "both") "FOO" ["low"] false false "both")
    as [self1| |] eqn:Hup; [|vm_compute in Hup; discriminate..].
  destruct (dump_to_json self1 "diag_table") as [[self2 eff]| |] eqn:Hdump;
    [|vm_compute in Hup; injection Hup as <-; vm_compute in Hdump; discriminate..].
  exists self1, self2, eff. split_and!; [done..|].
  apply (reachable_templates_fixed "both" true self2).
  eapply reach_dump; [|exact Hdump]. eapply reach_update; [apply reach_init | exact Hup].
Defined.

Lemma wants_transports_reachable vert_grid after_dump self key f :
  reachable vert_grid after_dump self → field_of key self = Some f →
  wants_transports key f
    = bool_decide (key ∈ ["medium_native_z"; "high_native_z"; "low_native_z"]).
Proof.
  intros Hr Hf. destruct (reachable_module _ _ _ _ _ Hr Hf) as (Hkey & Hm & _).
  unfold wants_transports. rewrite Hm. clear -Hkey. revert Hkey.
  grid_cases; cbn; intros Hkey;
    repeat (apply elem_of_cons in Hkey as [->|Hkey]; [reflexivity|]);
    by apply elem_of_nil in Hkey.
Qed.

(** X11. In a document written from a reachable store the tiers
    medium_native_z, high_native_z and low_native_z, and no others, carry
    the transport list: the base tiers have the same module but no "_z" at
    the end of their name, the interpolated tiers end in "_z" but have
    another module. *)
Theorem transports_on_native_tiers (vert_grid : string) (after_dump : bool)
    (self self' : obj) (filename name : string) (doc : document) :
  reachable vert_grid after_dump self →
  dump_to_json self filename = Ok (self', Written name doc) →
  ∀ key T, (key, T) ∈ Files doc →
    ∃ f, field_of key self = Some f ∧
         fields T =
           [if bool_decide (key ∈ ["medium_native_z"; "high_native_z"; "low_native_z"])
            then mkField (module f) (packing f) (lists f ++ [transports])
            else f].
Proof.
  intros Hr Hdump key T Hin.
  pose proof (reachable_inv _ _ _ Hr) as (Hwf & _ & _).
  destruct (dump_to_json_spec self filename Hwf) as (eff & Heq & Heff).
  rewrite Heq in Hdump. simplify_eq.
  destruct Heff as [[_ [=]]|(_ & doc' & [= -> ->] & Hdoc)]. simpl in Hin.
  apply list_elem_of_lookup_1 in Hin as [i Hi].
  destruct (Forall2_lookup_l _ _ _ _ _ Hdoc Hi) as ([k t] & _ & f & Hf & [= -> ->]).
  simpl in *. exists f. split; [done|]. unfold dumped.
  by rewrite (wants_transports_reachable _ _ _ _ _ Hr Hf).
Qed.

Lemma transports_on_native_tiers_witness :
  ∃ self1 self2 doc,
    update (__init__ "both") "FOO" ["medium"] false false "both" = Ok self1 ∧
    dump_to_json self1 "diag_table" = Ok (self2, Written "diag_table" doc) ∧
    ∀ key T, (key, T) ∈ Files doc →
      ∃ f, field_of key self1 = Some f ∧
           fields T =
             [if bool_decide (key ∈ ["medium_native_z"; "high_native_z"; "low_native_z"])
              then mkField (module f) (packing f) (lists f ++ [transports])
              else f].
Proof.
  destruct (update (__init__ "both") "FOO" ["medium"] false false "both")
    as [self1| |] eqn:Hup; [|vm_compute in Hup; discriminate..].
  destruct (dump_to_json self1 "diag_table") as [[self2 [name doc|msg]]| |] eqn:Hdump;
    [|vm_compute in Hup; injection Hup as <-; vm_compute in Hdump; discriminate..].
  assert (name = "diag_table") as ->.
  { vm_compute in Hup. injection Hup as <-. vm_compute in Hdump. by injection Hdump. }
  exists self1, self2, doc. split_and!; [done..|].
  apply (transports_on_native_tiers "both" false self1 self2 "diag_table" "diag_table" doc);
    [|exact Hdump].
  eapply reach_update; [apply reach_init | exact Hup].
Defined.

Lemma variables_dump_all d self key :
  wf self → NoDup d.*1 → variables key (dump_all d self) = variables key self.
Proof.
  intros Hwf Hnd. unfold variables. rewrite field_of_dump_all by done.
  destruct (_ && _); [|done].
  unfold field_of. destruct (dict_get key _) as [t|] eqn:Hget; simpl; [|done].
  destruct (wf_cell_of _ _ _ Hwf Hget) as (f & l & ls & -> & Hl). simpl.
  unfold dumped, add_transports. destruct (wants_transports key f); simpl; [|done].
  by rewrite Hl.
Qed.

(** X12. [dump_to_json] leaves every variable list as it was, so a second
    dump finds the same tiers to write; what it may change in the registry
    is the rest of ["lists"] only. *)
Theorem dump_keeps_variables (vert_grid : string) (after_dump : bool) (self self' : obj)
    (filename : string) (eff : effect) :
  reachable vert_grid after_dump self →
  dump_to_json self filename = Ok (self', eff) →
  _diag_table_dict self' = _diag_table_dict self ∧
  ∀ key,
    variables key self' = variables key self ∧
    (λ f, (module f, packing f)) <$> field_of key self'
      = (λ f, (module f, packing f)) <$> field_of key self.
Proof.
  intros Hr Hdump. pose proof (reachable_inv _ _ _ Hr) as (Hwf & _ & _).
  assert (reachable vert_grid true self') as Hr' by (by eapply reach_dump).
  destruct (dump_to_json_spec self filename Hwf) as (eff' & Heq & _).
  rewrite Heq in Hdump. simplify_eq.
  split; [apply dump_all_dict|]. intros key. split.
  - apply variables_dump_all; [done | apply Hwf].
  - by rewrite (reachable_field _ _ _ key Hr'), (reachable_field _ _ _ key Hr).
Qed.

Lemma dump_keeps_variables_witness :
  ∃ self1 self2 eff,
    update (__init__ "native") "FOO" ["low"] false false "native" = Ok self1 ∧
    dump_to_json self1 "diag_table" = Ok (self2, eff) ∧
    variables "low_native_z" self2 = Some ["FOO"].
Proof.
  destruct (update (__init__ "native") "FOO" ["low"] false false "native")
    as [self1| |] eqn:Hup; [|vm_compute in Hup; discriminate..].
  destruct (dump_to_json self1 "diag_table") as [[self2 eff]| |] eqn:Hdump;
    [|vm_compute in Hup; injection Hup as <-; vm_compute in Hdump; discriminate..].
  exists self1, self2, eff. split_and!; [done..|].
  destruct (dump_keeps_variables "native" false self1 self2 "diag_table" eff) as [_ Hv];
    [eapply reach_update; [apply reach_init | exact Hup] | exact Hdump |].
  rewrite (proj1 (Hv "low_native_z")).
  vm_compute in Hup. injection Hup as <-. reflexivity.
Defined.

(** ** The duplicate check *)

Lemma seen_step_iff (pv : gmap string (list string)) freq v f x :
  seen (<[freq := default [] (pv !! freq) ++ [v]]>
          (if bool_decide (freq ∈ dom pv) then pv else <[freq := []]> pv)) f x
  ↔ seen pv f x ∨ (f = freq ∧ x = v).
Proof.
  unfold seen. destruct (decide (freq = f)) as [->|Hne].
  - rewrite lookup_insert_eq. simpl. rewrite elem_of_app, list_elem_of_singleton.
    naive_solver.
  - rewrite lookup_insert_ne by done. rewrite ensure_default. naive_solver.
Qed.

Lemma check_processed_returns_iff path v frequency (pv : gmap string (list string)) :
  (∃ pv', check_processed path v frequency pv = Ok pv') ↔
  NoDup frequency ∧ ∀ f, f ∈ frequency → ¬ seen pv f v.
Proof.
  revert pv. induction frequency as [|freq frequency IH]; intros pv.
  { split; [intros _; split; [constructor | intros f Hf; by apply elem_of_nil in Hf]
           | eauto]. }
  rewrite check_processed_step, NoDup_cons. case_bool_decide as Hdup.
  - split; [by intros [? ?]|]. intros [_ Hno]. exfalso. apply (Hno freq); [by left | done].
  - rewrite IH. split.
    + intros [Hnd Hno]. split_and!; [|done|].
      * intros Hin. apply (Hno freq Hin). apply seen_step_iff. by right.
      * intros f [->|Hin]%elem_of_cons; [done|].
        intros Hs. apply (Hno f Hin). apply seen_step_iff. by left.
    + intros [[Hfresh Hnd] Hno]. split; [done|]. intros f Hin [Hs|[-> _]]%seen_step_iff.
      * apply (Hno f); [by right | done].
      * done.
Qed.

Lemma check_processed_seen path v frequency (pv pv' : gmap string (list string)) f x :
  check_processed path v frequency pv = Ok pv' →
  seen pv' f x ↔ seen pv f x ∨ (x = v ∧ f ∈ frequency).
Proof.
  revert pv. induction frequency as [|freq frequency IH]; intros pv.
  { intros [= ->]. split; [by left | intros [?|[_ Hin]]; [done|]].
    by apply elem_of_nil in Hin. }
  rewrite check_processed_step. case_bool_decide as Hdup; [done|].
  intros Hck. rewrite (IH _ Hck), seen_step_iff, elem_of_cons. naive_solver.
Qed.

Lemma check_processed_outcome path v frequency (pv : gmap string (list string)) :
  (∃ pv', check_processed path v frequency pv = Ok pv') ∨
  (∃ msg, check_processed path v frequency pv = Fatal msg 1).
Proof.
  revert pv. induction frequency as [|freq frequency IH]; intros pv; [left; eauto|].
  rewrite check_processed_step. case_bool_decide; [right; eauto | apply IH].
Qed.

(** X13. The check of one declaration against [processed_vars] passes
    exactly when its frequencies are pairwise different and the name has
    not been recorded at any of them; it then records the name at each of
    them and nothing else; when it does not pass it logs and exits with
    status 1. *)
Theorem check_processed_spec (path varname : string) (frequency : list string)
    (processed_vars : gmap string (list string)) :
  ((∃ pv', check_processed path varname frequency processed_vars = Ok pv') ↔
   NoDup frequency ∧ ∀ freq, freq ∈ frequency → ¬ seen processed_vars freq varname) ∧
  (∀ pv', check_processed path varname frequency processed_vars = Ok pv' →
     ∀ freq name, seen pv' freq name ↔
       seen processed_vars freq name ∨ (name = varname ∧ freq ∈ frequency)) ∧
  ((∃ pv', check_processed path varname frequency processed_vars = Ok pv') ∨
   (∃ msg, check_processed path varname frequency processed_vars = Fatal msg 1)).
Proof.
  split_and!.
  - apply check_processed_returns_iff.
  - intros pv' Hck freq name. by eapply check_processed_seen.
  - apply check_processed_outcome.
Qed.

(** ** The loop over the lines *)





Section RunFacts.
Variable ecosys_diagnostics_in : string.
Variable diag2D_list : list string.
Variable vert_grid : string.
Variable lMARBL_output_all lMARBL_output_alt_co2 : bool.

Abbreviation step :=
  (process_line ecosys_diagnostics_in diag2D_list vert_grid lMARBL_output_all
     lMARBL_output_alt_co2).
Abbreviation run :=
  (process_lines ecosys_diagnostics_in diag2D_list vert_grid lMARBL_output_all
     lMARBL_output_alt_co2).

Lemma process_line_null st line :
  _parse_line (strip line) = Ok None → step st line = Ok st.
Proof. destruct st as [pv dt]. unfold process_line. by intros ->. Qed.

Lemma process_line_skipped st line v fs os :
  _parse_line (strip line) = Ok (Some (v, fs, os)) →
  negb lMARBL_output_alt_co2 && contains "ALT_CO2" v = true →
  step st line = Ok st.
Proof. destruct st as [pv dt]. unfold process_line. intros -> Halt. simpl. by rewrite Halt. Qed.

Lemma process_line_fatal st line msg code :
  _parse_line (strip line) = Fatal msg code → step st line = Fatal msg code.
Proof. destruct st as [pv dt]. unfold process_line. by intros ->. Qed.

Lemma process_lines_null st all_lines :
  Forall (λ line, _parse_line (strip line) = Ok None) all_lines →
  run st all_lines = Ok st.
Proof.
  induction 1 as [|line all_lines Hl _ IH]; [done|].
  simpl. by rewrite process_line_null.
Qed.

Lemma process_line_reachable b st line st' :
  reachable vert_grid b st.2 → step st line = Ok st' → reachable vert_grid b st'.2.
Proof.
  destruct st as [pv dt]. unfold process_line. simpl. intros Hr.
  destruct (_parse_line (strip line)) as [[[[v fs] os]|]| |]; simpl; try done.
  2:{ by intros [= <-]. }
  destruct (negb lMARBL_output_alt_co2 && contains "ALT_CO2" v); [by intros [= <-]|].
  destruct (check_processed _ _ _ _) as [pv'| |]; simpl; try done.
  destruct (update _ _ _ _ _ _) as [dt'| |] eqn:Hup; simpl; try done.
  intros [= <-]. simpl. by eapply reach_update.
Qed.

Lemma process_lines_reachable b st all_lines st' :
  reachable vert_grid b st.2 → run st all_lines = Ok st' → reachable vert_grid b st'.2.
Proof.
  revert st. induction all_lines as [|line all_lines IH]; intros st Hr.
  { by intros [= <-]. }
  simpl. destruct (step st line) as [st1| |] eqn:Hl; simpl; try done.
  apply IH. by eapply process_line_reachable.
Qed.



Lemma process_lines_fatal_line st lines1 line lines2 msg :
  _parse_line (strip line) = Fatal msg 1 →
  terminated (run st (lines1 ++ line :: lines2)).
Proof.
  intros Hp. rewrite process_lines_app.
  destruct (run st lines1) as [st1| |]; simpl; [|done..].
  by rewrite (process_line_fatal _ _ _ _ Hp).
Qed.

Lemma process_lines_skip st lines1 line lines2 :
  step st line = Ok st → (∀ st', step st' line = Ok st') →
  run st (lines1 ++ line :: lines2) = run st (lines1 ++ lines2).
Proof.
  intros _ Hskip. rewrite !process_lines_app.
  destruct (run st lines1) as [st1| |]; simpl; [|done..].
  by rewrite Hskip.
Qed.

End RunFacts.

Lemma init_dump vert_grid filename :
  dump_to_json (__init__ vert_grid) filename = Ok (__init__ vert_grid, Printed warning).
Proof. grid_cases; reflexivity. Qed.

(** X14. A declaration that names one frequency twice, as in
    [FOO : low_mean, low_inst], stops the run on its own line with the
    duplicate error and status 1, whatever came before, unless its name is
    skipped as ALT_CO2. *)
Theorem duplicate_in_one_declaration (path : string) (diag2D_list : list string)
    (vert_grid : string) (lMARBL_output_all lMARBL_output_alt_co2 : bool)
    (st : loop_state) (line varname : string) (frequency operator : list string) :
  _parse_line (strip line) = Ok (Some (varname, frequency, operator)) →
  negb lMARBL_output_alt_co2 && contains "ALT_CO2" varname = false →
  ¬ NoDup frequency →
  ∃ msg, process_line path diag2D_list vert_grid lMARBL_output_all
           lMARBL_output_alt_co2 st line = Fatal msg 1.
Proof.
  intros Hp Halt Hdup. destruct st as [pv dt]. unfold process_line. rewrite Hp. simpl.
  rewrite Halt.
  destruct (check_processed_outcome path varname frequency pv) as [Hok|[msg ->]]; [|eauto].
  apply check_processed_returns_iff in Hok as [Hnd _]. done.
Qed.

Lemma duplicate_in_one_declaration_witness :
  ∃ msg, process_line "ecosys_diagnostics" [] "native" false false
           (∅, __init__ "native") "FOO : low_mean, low_inst" = Fatal msg 1.
Proof.
  apply (duplicate_in_one_declaration "ecosys_diagnostics" [] "native" false false
           (∅, __init__ "native") "FOO : low_mean, low_inst" "FOO" ["low"; "low"]
           ["mean"; "inst"]); [reflexivity..|].
  intros Hnd. apply NoDup_cons in Hnd as [Hin _]. apply Hin. by left.
Defined.

(** X15. With ALT_CO2 diagnostics left out, a declaration whose name
    holds "ALT_CO2" is as good as absent: the run on the file with the line
    and the run on the file without it end the same. *)
Theorem alt_co2_line_has_no_effect (files1 files2 : string → option (list string))
    (path diag_table_out : string) (diag2D_list : list string) (vert_grid : string)
    (lMARBL_output_all : bool) (lines1 : list string) (line : string)
    (lines2 : list string) (varname : string) (frequency operator : list string) :
  files1 path = Some (lines1 ++ line :: lines2) →
  files2 path = Some (lines1 ++ lines2) →
  _parse_line (strip line) = Ok (Some (varname, frequency, operator)) →
  contains "ALT_CO2" varname = true →
  diagnostics_to_diag_table files1 (Some path) diag_table_out diag2D_list vert_grid
    lMARBL_output_all false
  = diagnostics_to_diag_table files2 (Some path) diag_table_out diag2D_list vert_grid
      lMARBL_output_all false.
Proof.
  intros H1 H2 Hp Halt. unfold diagnostics_to_diag_table. rewrite H1, H2. cbv zeta.
  rewrite (process_lines_skip path diag2D_list vert_grid lMARBL_output_all false
             (∅, __init__ vert_grid) lines1 line lines2); [done| |];
    [|intros st']; by eapply process_line_skipped.
Qed.

Lemma alt_co2_line_has_no_effect_witness :
  diagnostics_to_diag_table
    (λ _, Some ["FOO : low_mean"; "FOO_ALT_CO2 : low_mean, low_mean"; "BAR : high_mean"])
    (Some "ecosys_diagnostics") "diag_table" ["BAR"] "native" false false
  = diagnostics_to_diag_table (λ _, Some ["FOO : low_mean"; "BAR : high_mean"])
      (Some "ecosys_diagnostics") "diag_table" ["BAR"] "native" false false.
Proof.
  apply (alt_co2_line_has_no_effect _ _ "ecosys_diagnostics" "diag_table" ["BAR"] "native"
           false ["FOO : low_mean"] "FOO_ALT_CO2 : low_mean, low_mean" ["BAR : high_mean"]
           "FOO_ALT_CO2" ["low"; "low"] ["mean"; "mean"]); reflexivity.
Defined.

(** X16. A file of blank lines and comments only, the empty file among
    them, gives no error and no output file: the run prints the warning,
    whatever the vertical grid and the flags. *)
Theorem blank_file_warning (files : string → option (list string))
    (path diag_table_out : string) (diag2D_list : list string) (vert_grid : string)
    (lMARBL_output_all lMARBL_output_alt_co2 : bool) (all_lines : list string) :
  files path = Some all_lines →
  Forall (λ line, ∃ before more,
            split "#" (strip line) = before :: more ∧ blank before = true) all_lines →
  diagnostics_to_diag_table files (Some path) diag_table_out diag2D_list vert_grid
    lMARBL_output_all lMARBL_output_alt_co2
  = Ok (Printed "WARNING: no JSON file written as no variables were requested").
Proof.
  intros Hfile Hblank. unfold diagnostics_to_diag_table. rewrite Hfile. cbv zeta.
  rewrite process_lines_null.
  - simpl. by rewrite init_dump.
  - eapply Forall_impl; [exact Hblank|]. intros line Hline. simpl in Hline.
    unfold _parse_line. destruct Hline as (before & more & -> & Hb).
    apply strip_nil_iff in Hb. by rewrite Hb.
Qed.

Lemma blank_file_warning_witness :
  diagnostics_to_diag_table (λ _, Some ["# MARBL diagnostics"; ""; "   # none"])
    (Some "ecosys_diagnostics") "diag_table" [] "both" false false
  = Ok (Printed "WARNING: no JSON file written as no variables were requested").
Proof.
  apply (blank_file_warning _ "ecosys_diagnostics" "diag_table" [] "both" false false
           ["# MARBL diagnostics"; ""; "   # none"]); [reflexivity|].
  repeat constructor.
  - exists "", [" MARBL diagnostics"]. split; reflexivity.
  - exists "", []. split; reflexivity.
  - exists "", [" none"]. split; reflexivity.
Defined.

(** X17. One malformed line anywhere in the file is enough: the run ends
    with status 1 and writes nothing, whatever the other lines hold. *)
Theorem malformed_line_exit (files : string → option (list string))
    (path diag_table_out : string) (diag2D_list : list string) (vert_grid : string)
    (lMARBL_output_all lMARBL_output_alt_co2 : bool)
    (lines1 : list string) (line : string) (lines2 : list string) (msg : string) :
  files path = Some (lines1 ++ line :: lines2) →
  _parse_line (strip line) = Fatal msg 1 →
  exit_status
    (diagnostics_to_diag_table files (Some path) diag_table_out diag2D_list vert_grid
       lMARBL_output_all lMARBL_output_alt_co2) = Some 1.
Proof.
  intros Hfile Hp. unfold diagnostics_to_diag_table. rewrite Hfile. cbv zeta.
  pose proof (process_lines_fatal_line path diag2D_list vert_grid lMARBL_output_all
                lMARBL_output_alt_co2 (∅, __init__ vert_grid) lines1 line lines2 msg Hp)
    as Hterm.
  pose proof (process_lines_exit path diag2D_list vert_grid lMARBL_output_all
                lMARBL_output_alt_co2 (∅, __init__ vert_grid) (lines1 ++ line :: lines2))
    as Hexit.
  revert Hterm Hexit.
  generalize (process_lines path diag2D_list vert_grid lMARBL_output_all
                lMARBL_output_alt_co2 (∅, __init__ vert_grid) (lines1 ++ line :: lines2)).
  intros [st|m code|e] Hterm Hexit;
    [done | simpl in Hexit; subst code; reflexivity | reflexivity].
Qed.

Lemma malformed_line_exit_witness :
  exit_status
    (diagnostics_to_diag_table (λ _, Some ["FOO : low_mean"; "BAR : high"; "BAZ : low_mean"])
       (Some "ecosys_diagnostics") "diag_table" [] "native" false false) = Some 1.
Proof.
  eapply (malformed_line_exit _ "ecosys_diagnostics" "diag_table" [] "native" false false
            ["FOO : low_mean"] "BAR : high" ["BAZ : low_mean"]); reflexivity.
Defined.


(** ** What a run records and what it writes *)

Lemma elem_of_placements is2D vg frequency key :
  key ∈ placements is2D vg frequency ↔
  ∃ freq, freq ∈ frequency ∧ belongs_to is2D vg freq key.
Proof.
  unfold belongs_to. induction frequency as [|f frequency IH]; simpl.
  { split; [by intros ?%elem_of_nil | by intros (? & ?%elem_of_nil & _)]. }
  rewrite elem_of_app, IH. clear IH.
  assert (key ∈ (if String.eqb f "never" then [] else targets is2D vg f) ↔
          f ≠ "never" ∧
          if is2D then key = f
          else (vg ∈ ["interpolated"; "both"] ∧ key = f +:+ "_z") ∨
               (vg ∈ ["native"; "both"] ∧ key = f +:+ "_native_z")) as ->.
  { destruct (String.eqb_spec f "never") as [->|Hne].
    - split; [by intros ?%elem_of_nil | by intros [? _]].
    - unfold targets. destruct is2D.
      + rewrite list_elem_of_singleton. tauto.
      + rewrite elem_of_app. do 2 case_bool_decide;
          rewrite ?list_elem_of_singleton, ?elem_of_nil; tauto. }
  split.
  - intros [H|(freq & Hin & H)]; [exists f | exists freq]; (split; [|done]);
      [by left | by right].
  - intros (freq & [->|Hin]%elem_of_cons & H); [by left | right; eauto].
Qed.

Lemma count_pos key keys : key ∈ keys → (0 < count key keys)%nat.
Proof.
  induction keys as [|k keys IH]; [by intros ?%elem_of_nil|].
  intros [->|Hin]%elem_of_cons; simpl.
  - rewrite String.eqb_refl. lia.
  - specialize (IH Hin). lia.
Qed.

Lemma elem_of_replicate_pos {A} (x y : A) n : (0 < n)%nat → x ∈ replicate n y ↔ x = y.
Proof. intros Hn. rewrite elem_of_replicate. split; [tauto | intros ->; split; [done|lia]]. Qed.

Lemma update_in_variables self v frequency is2D output_all vg self' key x :
  wf self → update self v frequency is2D output_all vg = Ok self' →
  in_variables self' key x ↔
  in_variables self key x ∨
  (x = v ∧ ∃ freq, freq ∈ (if output_all then ["medium"] else frequency) ∧
                   belongs_to is2D vg freq key).
Proof.
  intros Hwf. unfold update. rewrite update_loop_append_all.
  replace ([] ++ frequency) with frequency by done.
  rewrite <- elem_of_placements.
  set (keys := placements is2D vg _).
  intros [-> Hpresent]%append_all_Ok; [|done].
  assert (variables key (modify_all keys (push v) self)
          = (λ l, l ++ replicate (count key keys) v) <$> variables key self) as Hv.
  { unfold variables.
    rewrite field_of_modify_all by (done || apply push_keeps_lists).
    destruct (field_of key self) as [f|]; simpl; [|done].
    rewrite iter_push. by destruct f as [m p [|l ls]]. }
  unfold in_variables. rewrite Hv.
  destruct (decide (key ∈ keys)) as [Hin|Hout].
  - rewrite Forall_forall in Hpresent.
    destruct (wf_variables self key Hwf (Hpresent _ Hin)) as [l Hl]. rewrite Hl. simpl.
    split.
    + intros (l' & [= <-] & Hx). apply elem_of_app in Hx as [Hx|Hx]; [left; eauto|].
      right. split; [|done]. apply elem_of_replicate in Hx. tauto.
    + intros [(l' & [= <-] & Hx)|[-> _]]; eexists; (split; [done|]);
        apply elem_of_app; [by left|]. right.
      apply elem_of_replicate_pos; [by apply count_pos | done].
  - rewrite count_not_elem by done. simpl.
    split.
    + intros (l' & Hl' & Hx). left.
      destruct (variables key self) as [l|]; simplify_eq/=.
      rewrite app_nil_r in Hx. eauto.
    + intros [(l & -> & Hx)|[_ ?]]; [|done]. simpl. rewrite app_nil_r. eauto.
Qed.

Lemma init_in_variables vert_grid key x : ¬ in_variables (__init__ vert_grid) key x.
Proof.
  intros (l & Hl & Hx). unfold variables in Hl.
  destruct (field_of key (__init__ vert_grid)) as [f|] eqn:Hf; [|done].
  assert (key ∈ tier_keys vert_grid) as Hkey.
  { rewrite <- init_keys. apply dict_get_is_Some. unfold field_of in Hf.
    destruct (dict_get key _); [eauto | done]. }
  rewrite (init_field _ _ Hkey) in Hf. simplify_eq/=. by apply elem_of_nil in Hx.
Qed.

Lemma dump_listed self filename self' name doc key x :
  wf self → dump_to_json self filename = Ok (self', Written name doc) →
  listed doc key x ↔ in_variables self key x.
Proof.
  intros Hwf Hdump.
  destruct (dump_to_json_spec self filename Hwf) as (eff & Heq & Heff).
  rewrite Heq in Hdump. simplify_eq.
  destruct Heff as [[_ [=]]|(_ & doc' & [= -> ->] & Hdoc)].
  assert (∀ k f, field_of k self = Some f →
                 lists (dumped k f) !! 0%nat = variables k self) as Hsame.
  { intros k f Hf. unfold variables. rewrite Hf. simpl. revert Hf. unfold field_of.
    destruct (dict_get k _) as [t|] eqn:Hget; simpl; [|done].
    destruct (wf_cell_of _ _ _ Hwf Hget) as (f' & l & ls & -> & Hl). simpl.
    intros [= <-]. unfold dumped, add_transports.
    destruct (wants_transports k f'); simpl; by rewrite Hl. }
  unfold listed, in_variables. simpl. split.
  - intros (T & f & l & Hin & HT & Hl & Hx).
    apply list_elem_of_lookup_1 in Hin as [i Hi].
    destruct (Forall2_lookup_l _ _ _ _ _ Hdoc Hi) as ([k t] & _ & f0 & Hf0 & [= -> ->]).
    simpl in *. injection HT as <-. rewrite (Hsame _ _ Hf0) in Hl. eauto.
  - intros (l & Hl & Hx).
    assert (has_variables key self) as Hhas.
    { unfold has_variables. rewrite Hl. destruct l; [by apply elem_of_nil in Hx | done]. }
    assert (∃ t, dict_get key (_diag_table_dict self) = Some t) as [t Hget].
    { unfold variables, field_of in Hl. destruct (dict_get key _); [eauto | done]. }
    assert ((key, t) ∈ filter (λ kt, has_variables kt.1 self) (_diag_table_dict self))
      as Hin.
    { apply list_elem_of_filter. split; [done|]. by apply dict_get_Some_elem. }
    apply list_elem_of_lookup_1 in Hin as [i Hi].
    destruct (Forall2_lookup_r _ _ _ _ _ Hdoc Hi) as (entry & Hentry & f & Hf & ->).
    simpl in *. exists (with_fields t [dumped key f]), (dumped key f), l.
    split_and!; [by eapply list_elem_of_lookup_2 | done | | done].
    by rewrite (Hsame _ _ Hf).
Qed.

Lemma dump_printed self filename self' msg key x :
  wf self → dump_to_json self filename = Ok (self', Printed msg) →
  ¬ in_variables self key x.
Proof.
  intros Hwf Hdump (l & Hl & Hx).
  destruct (dump_to_json_spec self filename Hwf) as (eff & Heq & Heff).
  rewrite Heq in Hdump. simplify_eq.
  destruct Heff as [[Hnil _]|(_ & doc' & [=] & _)].
  assert (∃ t, dict_get key (_diag_table_dict self) = Some t) as [t Hget].
  { unfold variables, field_of in Hl. destruct (dict_get key _); [eauto | done]. }
  assert ((key, t) ∈ filter (λ kt, has_variables kt.1 self) (_diag_table_dict self))
    as Hin; [|rewrite Hnil in Hin; by apply elem_of_nil in Hin].
  apply list_elem_of_filter. split; [|by apply dict_get_Some_elem].
  simpl. unfold has_variables. rewrite Hl.
  destruct l; [by apply elem_of_nil in Hx | done].
Qed.

Section RunContents.
Variable ecosys_diagnostics_in : string.
Variable diag2D_list : list string.
Variable vert_grid : string.
Variable lMARBL_output_all lMARBL_output_alt_co2 : bool.

Abbreviation step :=
  (process_line ecosys_diagnostics_in diag2D_list vert_grid lMARBL_output_all
     lMARBL_output_alt_co2).
Abbreviation run :=
  (process_lines ecosys_diagnostics_in diag2D_list vert_grid lMARBL_output_all
     lMARBL_output_alt_co2).

Abbreviation places :=
  (line_places diag2D_list vert_grid lMARBL_output_all lMARBL_output_alt_co2).
Abbreviation records := (line_records lMARBL_output_alt_co2).

Lemma process_line_contents b st line st' :
  reachable vert_grid b st.2 → step st line = Ok st' →
  (∀ key x, in_variables st'.2 key x ↔ in_variables st.2 key x ∨ places line key x) ∧
  (∀ freq x, seen st'.1 freq x ↔ seen st.1 freq x ∨ records line freq x).
Proof.
  destruct st as [pv dt]. unfold process_line, line_places, line_records, declaration_of.
  simpl. intros (Hwf & _ & _)%reachable_inv.
  destruct (_parse_line (strip line)) as [[[[v fs] os]|]| |]; simpl; try done.
  2:{ intros [= <-]. simpl. split; intros; (split; [by left|]).
      - by intros [?|(? & ? & (? & [=] & _) & _)].
      - by intros [?|(? & (? & [=] & _) & _)]. }
  destruct (negb lMARBL_output_alt_co2 && contains "ALT_CO2" v) eqn:Halt.
  { intros [= <-]. simpl. split; intros; (split; [by left|]).
    - intros [?|(? & ? & (? & [= -> _ _] & Hno) & _)]; [done|]. congruence.
    - intros [?|(? & (? & [= -> _ _] & Hno) & _)]; [done|]. congruence. }
  destruct (check_processed _ _ _ _) as [pv'| |] eqn:Hck; simpl; try done.
  destruct (update _ _ _ _ _ _) as [dt'| |] eqn:Hup; simpl; try done.
  intros [= <-]. simpl. split.
  - intros key x. rewrite (update_in_variables _ _ _ _ _ _ _ key x Hwf Hup).
    split; (intros [?|H]; [by left | right]).
    + destruct H as (-> & freq & Hin & Hb). exists fs, freq. eauto.
    + destruct H as (fs' & freq & (os' & [= -> -> ->] & _) & Hin & Hb). eauto.
  - intros freq x. rewrite (check_processed_seen _ _ _ _ _ freq x Hck).
    split; (intros [?|H]; [by left | right]).
    + destruct H as [-> Hin]. exists fs. eauto.
    + destruct H as (fs' & (os' & [= -> -> ->] & _) & Hin). eauto.
Qed.

Lemma process_lines_contents b st all_lines st' :
  reachable vert_grid b st.2 → run st all_lines = Ok st' →
  (∀ key x, in_variables st'.2 key x ↔
     in_variables st.2 key x ∨ ∃ line, line ∈ all_lines ∧ places line key x) ∧
  (∀ freq x, seen st'.1 freq x ↔
     seen st.1 freq x ∨ ∃ line, line ∈ all_lines ∧ records line freq x).
Proof.
  revert st. induction all_lines as [|line all_lines IH]; intros st Hr.
  { intros [= <-]. split; intros; (split; [by left|]);
      (intros [?|(? & ?%elem_of_nil & _)]; done). }
  simpl. destruct (step st line) as [st1| |] eqn:Hstep; simpl; try done.
  intros Hrest.
  destruct (process_line_contents b st line st1 Hr Hstep) as [Hv1 Hs1].
  destruct (IH st1 (process_line_reachable _ _ _ _ _ _ _ _ _ Hr Hstep) Hrest) as [Hv Hs].
  split.
  - intros key x. rewrite Hv, Hv1. setoid_rewrite elem_of_cons. naive_solver.
  - intros freq x. rewrite Hs, Hs1. setoid_rewrite elem_of_cons. naive_solver.
Qed.

End RunContents.

(** X19. When the loop over the lines comes to its end, [processed_vars]
    holds a name at a frequency exactly when some line of the file that is
    not skipped declares the name at that frequency. *)
Theorem run_records_declarations (path : string) (diag2D_list : list string)
    (vert_grid : string) (lMARBL_output_all lMARBL_output_alt_co2 : bool)
    (all_lines : list string) (processed_vars : gmap string (list string))
    (diag_table : obj) :
  process_lines path diag2D_list vert_grid lMARBL_output_all lMARBL_output_alt_co2
    (∅, __init__ vert_grid) all_lines = Ok (processed_vars, diag_table) →
  ∀ freq name,
    seen processed_vars freq name ↔
    ∃ line, line ∈ all_lines ∧ line_records lMARBL_output_alt_co2 line freq name.
Proof.
  intros Hrun freq name.
  destruct (process_lines_contents path diag2D_list vert_grid lMARBL_output_all
              lMARBL_output_alt_co2 false (∅, __init__ vert_grid) _ _ (reach_init _) Hrun) as [_ Hs].
  rewrite Hs. simpl. split; [intros [Hseen|?]; [|done] | by right].
  unfold seen in Hseen. rewrite lookup_empty in Hseen. by apply elem_of_nil in Hseen.
Qed.

Lemma run_records_declarations_witness :
  ∃ processed_vars diag_table,
    process_lines "ecosys_diagnostics" [] "native" false false (∅, __init__ "native")
      ["FOO : low_mean, high_mean"; "BAR : low_mean"] = Ok (processed_vars, diag_table) ∧
    seen processed_vars "low" "BAR" ∧ ¬ seen processed_vars "high" "BAR".
Proof.
  destruct (process_lines "ecosys_diagnostics" [] "native" false false
              (∅, __init__ "native") ["FOO : low_mean, high_mean"; "BAR : low_mean"])
    as [[pv dt]| |] eqn:Hrun; [|vm_compute in Hrun; discriminate..].
  exists pv, dt. split; [done|].
  pose proof (run_records_declarations _ _ _ _ _ _ _ _ Hrun) as Hiff. split.
  - apply Hiff. exists "BAR : low_mean". split; [by right; left|].
    exists ["low"]. split; [by exists ["mean"] | by left].
  - intros (line & Hin & fs & (os & Hp & _) & Hf)%Hiff.
    apply elem_of_cons in Hin as [->|Hin]; [vm_compute in Hp; discriminate|].
    apply elem_of_cons in Hin as [->|Hin]; [|by apply elem_of_nil in Hin].
    vm_compute in Hp. injection Hp as <- <-.
    apply elem_of_cons in Hf as [[=]|Hf]. by apply elem_of_nil in Hf.
Defined.

(** X20. What a run writes is what the file declares: a name stands in
    the variable list of a tier of the document exactly when some line that
    is not skipped declares it at a frequency belonging to that tier (the
    base tier for names in [diag2D_list], the variants of the vertical grid
    for the others; "medium" in place of every frequency under
    [lMARBL_output_all]).  When the run prints the warning instead, no line
    puts anything anywhere. *)
Theorem run_writes_declarations (files : string → option (list string))
    (path diag_table_out : string) (diag2D_list : list string) (vert_grid : string)
    (lMARBL_output_all lMARBL_output_alt_co2 : bool) (all_lines : list string) :
  files path = Some all_lines →
  match diagnostics_to_diag_table files (Some path) diag_table_out diag2D_list
          vert_grid lMARBL_output_all lMARBL_output_alt_co2 with
  | Ok (Written _ doc) =>
      ∀ key name,
        listed doc key name ↔
        ∃ line, line ∈ all_lines ∧
                line_places diag2D_list vert_grid lMARBL_output_all
                  lMARBL_output_alt_co2 line key name
  | Ok (Printed _) =>
      ∀ line key name,
        line ∈ all_lines →
        ¬ line_places diag2D_list vert_grid lMARBL_output_all
            lMARBL_output_alt_co2 line key name
  | _ => True
  end.
Proof.
  intros Hfile. unfold diagnostics_to_diag_table. rewrite Hfile. cbv zeta.
  destruct (process_lines _ _ _ _ _ _ _) as [[pv dt]| |] eqn:Hrun; simpl; [|done..].
  destruct (process_lines_contents path diag2D_list vert_grid lMARBL_output_all
              lMARBL_output_alt_co2 false (∅, __init__ vert_grid) _ _ (reach_init _) Hrun) as [Hv _].
  pose proof (process_lines_reachable path diag2D_list vert_grid lMARBL_output_all
                lMARBL_output_alt_co2 false (∅, __init__ vert_grid) _ _ (reach_init _) Hrun) as Hr.
  simpl in Hv, Hr. apply reachable_inv in Hr as (Hwf & _ & _).
  destruct (dump_to_json dt diag_table_out) as [[dt' [name doc|msg]]| |] eqn:Hdump;
    simpl; [| |done..].
  - intros key x. rewrite (dump_listed _ _ _ _ _ key x Hwf Hdump), Hv.
    split; [intros [Hi|?]; [|done] | by right]. by apply init_in_variables in Hi.
  - intros line key x Hin Hplaces.
    apply (dump_printed _ _ _ _ key x Hwf Hdump). apply Hv. right. eauto.
Qed.

Lemma run_writes_declarations_witness :
  ∃ name doc,
    diagnostics_to_diag_table (λ _, Some ["FOO : low_mean"; "BAR : never_mean"])
      (Some "ecosys_diagnostics") "diag_table" [] "native" false false
    = Ok (Written name doc) ∧
    listed doc "low_native_z" "FOO" ∧ ¬ listed doc "low_native_z" "BAR".
Proof.
  pose proof (run_writes_declarations (λ _, Some ["FOO : low_mean"; "BAR : never_mean"])
                "ecosys_diagnostics" "diag_table" [] "native" false false _ eq_refl) as H.
  destruct (diagnostics_to_diag_table _ _ _ _ _ _ _) as [[name doc|msg]| |] eqn:Hrun;
    try (vm_compute in Hrun; discriminate).
  exists name, doc. split; [done|]. split.
  - apply H. exists "FOO : low_mean". split; [by left|].
    exists ["low"], "low". split_and!.
    + by exists ["mean"].
    + by left.
    + split; [done|]. right. split; [|done]. apply (bool_decide_unpack _). by vm_compute.
  - intros (line & Hin & fs & freq & (os & Hp & _) & Hf & _ & Hb)%H.
    apply elem_of_cons in Hin as [->|Hin]; [vm_compute in Hp; discriminate|].
    apply elem_of_cons in Hin as [->|Hin]; [|by apply elem_of_nil in Hin].
    vm_compute in Hp. injection Hp as <- <-.
    apply elem_of_cons in Hf as [->|Hf]; [|by apply elem_of_nil in Hf].
    simpl in Hb. destruct Hb as [[_ [=]]|[_ [=]]].
Defined.

